(** * Vita3K glutil: the shader loader [gl::load_shaders]

    A shallow embedding of [vita3k/glutil/src/shader.cpp].  The loader is
    sequential glue around the graphics driver, so the embedding is a state
    and trace monad over a model of the driver's object table: every native
    call of the source is one monadic step that may change the table and
    that records itself in the trace.

    The driver, the asset reader, the logger and the owning wrapper are not
    defined by the file.  The driver's entry points follow the OpenGL
    reference for the calls the loader makes; what the compiler and the
    linker answer, what the asset reader returns and whether the wrapper's
    [init] accepts a name are parameters ([collaborators]).

    The loader is embedded twice.  The first embedding takes the driver at
    its best: it has a current context, every creation hands out a fresh,
    non-zero name, every query is answered, and the buffer for an info log
    can be allocated.  The second, [Native], drops all of that: a creation
    may return 0, a query on a name that is no object writes nothing through
    its pointer, so that the loader's [result] and [info_log_length] are the
    two shared variables the source declares, the length the driver reports
    for an info log is its own, and allocating the buffer may throw.  The
    two embeddings are shown to agree on a driver that creates what it is
    asked for and reports lengths as the reference defines them. *)

From Stdlib Require Import ZArith String Ascii List Lia Bool.
From stdpp Require Import gmap strings list fin_maps.

Local Open Scope string_scope.
Local Open Scope list_scope.
Local Open Scope Z_scope.

(** ** Native types *)

(** Object names are chosen by the driver; the loader never computes with
    them.  A path is the string the log formatter prints for it. *)
Definition GLuint := N.
Definition GLint := Z.
Definition path := string.

Inductive shader_type := GL_VERTEX_SHADER | GL_FRAGMENT_SHADER.

Inductive pname := GL_COMPILE_STATUS | GL_LINK_STATUS | GL_INFO_LOG_LENGTH.

#[global] Instance shader_type_eq_dec : EqDecision shader_type.
Proof. solve_decision. Defined.

#[global] Instance pname_eq_dec : EqDecision pname.
Proof. solve_decision. Defined.

(** ** C strings and 32-bit [int] *)

Definition NUL : ascii := "000"%char.
Definition nl : string := String "010"%char EmptyString.

(** What a [const char*] reader sees of a buffer: the characters before the
    first NUL. *)
Fixpoint c_str (s : string) : string :=
  match s with
  | EmptyString => EmptyString
  | String c s' => if Ascii.eqb c NUL then EmptyString else String c (c_str s')
  end.

(** [std::vector<char> v(n)]: [n] value-initialised characters. *)
Fixpoint vector_char (n : nat) : string :=
  match n with
  | O => EmptyString
  | S n' => String NUL (vector_char n')
  end.

(** Copy [src] over the start of [buf]; the copy stops at the end of [buf]. *)
Fixpoint overwrite (src buf : string) : string :=
  match src, buf with
  | String c src', String _ buf' => String c (overwrite src' buf')
  | _, _ => buf
  end.

Fixpoint take_str (n : nat) (s : string) : string :=
  match n, s with
  | S n', String c s' => String c (take_str n' s')
  | _, _ => EmptyString
  end.

Definition wrap_int (z : Z) : Z := (z + 2 ^ 31) mod 2 ^ 32 - 2 ^ 31.

(** [a + b] on C++ [int].  The loader's only arithmetic is
    [info_log_length + 1], the size of the buffer it allocates; the size is
    in range whenever the info log is shorter than [2^31 - 2] characters
    ([log_fits] below). *)
Definition int_add (a b : Z) : Z := wrap_int (a + b).

(** ** The driver's object table

    Shader and program objects share one name space.  A shader that is
    still attached to a program when it is deleted is only flagged, and is
    removed when it is detached from the last program holding it. *)

Record shader_obj := {
  sh_type : shader_type;
  sh_source : string;
  sh_status : bool;
  sh_log : string;
  sh_flagged : bool
}.

Record program_obj := {
  pr_attached : list GLuint;
  pr_status : bool;
  pr_log : string
}.

Inductive gl_object :=
| Shader (s : shader_obj)
| Program (p : program_obj).

Record gl_state := {
  objects : gmap N gl_object;
  last_name : N
}.

Definition new_shader (t : shader_type) : shader_obj :=
  {| sh_type := t; sh_source := ""; sh_status := false; sh_log := "";
     sh_flagged := false |}.

Definition new_program : program_obj :=
  {| pr_attached := []; pr_status := false; pr_log := "" |}.

Definition set_object (h : GLuint) (o : gl_object) (st : gl_state) : gl_state :=
  {| objects := <[h := o]> (objects st); last_name := last_name st |}.

Definition remove_object (h : GLuint) (st : gl_state) : gl_state :=
  {| objects := delete h (objects st); last_name := last_name st |}.

Definition holds (h : GLuint) (o : gl_object) : bool :=
  match o with
  | Program p => bool_decide (h ∈ pr_attached p)
  | Shader _ => false
  end.

(** Is shader [h] attached to some program of the table? *)
Definition attached_anywhere (h : GLuint) (m : gmap N gl_object) : bool :=
  bool_decide (map_Exists (λ _ o, holds h o = true) m).

(** The shader objects behind a program's attachment list. *)
Fixpoint attached_shaders (m : gmap N gl_object) (hs : list GLuint) : list shader_obj :=
  match hs with
  | [] => []
  | h :: hs' =>
      match m !! h with
      | Some (Shader s) => s :: attached_shaders m hs'
      | _ => attached_shaders m hs'
      end
  end.

(** ** Calls recorded in the trace *)

Inductive event :=
| ECreateShader (t : shader_type) (h : GLuint)
| EReadAsset (p : path)
| ELogError (msg : string)
| EShaderSource (h : GLuint) (strs : list string)
| ECompileShader (h : GLuint)
| EGetShaderiv (h : GLuint) (p : pname) (v : GLint)
| EGetShaderInfoLog (h : GLuint) (bufSize : GLint) (buf : string)
| ECreateProgram (h : GLuint)
| EAttachShader (p h : GLuint)
| ELinkProgram (p : GLuint)
| EGetProgramiv (h : GLuint) (p : pname) (v : GLint)
| EGetProgramInfoLog (h : GLuint) (bufSize : GLint) (buf : string)
| EDetachShader (p h : GLuint)
| EDeleteShader (h : GLuint)
| EDeleteProgram (h : GLuint)
| EInit (h : GLuint) (ok : bool)
| EGetShaderivError (h : GLuint) (p : pname)
| EGetProgramivError (h : GLuint) (p : pname).

(** ** The state and trace monad *)

Definition M (A : Type) : Type := gl_state → A * gl_state * list event.

Definition ret {A} (a : A) : M A := λ st, (a, st, []).

Definition bind {A B} (m : M A) (k : A → M B) : M B := λ st,
  let r := m st in
  let r' := k r.1.1 r.1.2 in
  (r'.1.1, r'.1.2, r.2 ++ r'.2).

Notation "'call' x ':=' c 'in' k" := (bind c (λ x, k))
  (at level 10, x name, c at level 100, k at level 200).
Notation "c ';;;' k" := (bind c (λ _, k))
  (at level 100, k at level 200, right associativity).

(** ** The owning wrapper *)

Definition Deleter := GLuint → M unit.

(** Modelled from the spec: [GLObject] is declared in [glutil/object.h] and
    defined in [glutil/src/object.cpp], neither of which is among the
    sources.  The spec describes an owning-handle type that associates a
    native id with a matching deleter function, invokes the driver's
    deletion call on release and exposes "is empty". *)
Record GLObject := { name : GLuint; deleter : option Deleter }.

(** Modelled from the spec: the owning pointer the loader returns; the empty
    result is [None]. *)
Definition UniqueGLObject := option GLObject.

(** Modelled from the spec: [std::make_unique<GLObject>()], a wrapper that
    owns nothing yet. *)
Definition make_unique_GLObject : GLObject := {| name := 0%N; deleter := None |}.

(** ** Collaborators

    Everything the loader consumes and does not define: the build target,
    the asset reader, the driver's compiler and linker, and the wrapper's
    [init].  Whether [init] accepts a name, and whether an [init] that
    refuses has by then stored the name and the deleter in the wrapper, are
    both left open: neither the sources nor the spec settle them. *)

Record collaborators := {
  android : bool;
  read_asset_raw : path → list Byte.byte;
  compile : shader_type → string → bool * string;
  link : list shader_obj → bool * string;
  object_init : GLuint → bool;
  init_binds_on_refusal : bool
}.

(** ** Driver state transformers *)

Definition of_bool (b : bool) : GLint := if b then 1 else 0.

(** The length reported for an info log counts its terminator; an empty log
    has length 0. *)
Definition info_log_length_of (log : string) : GLint :=
  match log with
  | EmptyString => 0
  | _ => Z.of_nat (String.length log) + 1
  end.

Definition shader_param (s : shader_obj) (p : pname) : GLint :=
  match p with
  | GL_COMPILE_STATUS => of_bool (sh_status s)
  | GL_INFO_LOG_LENGTH => info_log_length_of (sh_log s)
  | GL_LINK_STATUS => 0
  end.

Definition program_param (p : program_obj) (q : pname) : GLint :=
  match q with
  | GL_LINK_STATUS => of_bool (pr_status p)
  | GL_INFO_LOG_LENGTH => info_log_length_of (pr_log p)
  | GL_COMPILE_STATUS => 0
  end.

(** At most [bufSize] characters, terminator included, are written. *)
Definition write_log (log : string) (bufSize : GLint) (buf : string) : string :=
  if bufSize <=? 0 then buf
  else overwrite (take_str (Z.to_nat (bufSize - 1)) log +:+ String NUL "") buf.

Definition with_source (s : shader_obj) (src : string) : shader_obj :=
  {| sh_type := sh_type s; sh_source := src; sh_status := sh_status s;
     sh_log := sh_log s; sh_flagged := sh_flagged s |}.

Definition with_status (s : shader_obj) (r : bool * string) : shader_obj :=
  {| sh_type := sh_type s; sh_source := sh_source s; sh_status := r.1;
     sh_log := r.2; sh_flagged := sh_flagged s |}.

Definition with_flag (s : shader_obj) : shader_obj :=
  {| sh_type := sh_type s; sh_source := sh_source s; sh_status := sh_status s;
     sh_log := sh_log s; sh_flagged := true |}.

Definition with_attached (p : program_obj) (hs : list GLuint) : program_obj :=
  {| pr_attached := hs; pr_status := pr_status p; pr_log := pr_log p |}.

Definition with_link (p : program_obj) (r : bool * string) : program_obj :=
  {| pr_attached := pr_attached p; pr_status := r.1; pr_log := r.2 |}.

(** [length] is NULL in the source, so every string is read up to its NUL. *)
Definition shader_source (shader : GLuint) (strs : list string) (st : gl_state)
  : gl_state :=
  match objects st !! shader with
  | Some (Shader s) =>
      set_object shader (Shader (with_source s (String.concat "" (c_str <$> strs)))) st
  | _ => st
  end.

Definition attach_shader (program shader : GLuint) (st : gl_state) : gl_state :=
  match objects st !! program, objects st !! shader with
  | Some (Program p), Some (Shader _) =>
      if bool_decide (shader ∈ pr_attached p) then st
      else set_object program (Program (with_attached p (pr_attached p ++ [shader]))) st
  | _, _ => st
  end.

(** Remove a shader that is flagged for deletion and no longer attached. *)
Definition reap (shader : GLuint) (st : gl_state) : gl_state :=
  match objects st !! shader with
  | Some (Shader s) =>
      if sh_flagged s && negb (attached_anywhere shader (objects st))
      then remove_object shader st else st
  | _ => st
  end.

Definition detach_shader (program shader : GLuint) (st : gl_state) : gl_state :=
  match objects st !! program with
  | Some (Program p) =>
      if bool_decide (shader ∈ pr_attached p) then
        reap shader
          (set_object program
             (Program (with_attached p (filter (λ h, h ≠ shader) (pr_attached p)))) st)
      else st
  | _ => st
  end.

Definition delete_shader (shader : GLuint) (st : gl_state) : gl_state :=
  match objects st !! shader with
  | Some (Shader s) =>
      if attached_anywhere shader (objects st)
      then set_object shader (Shader (with_flag s)) st
      else remove_object shader st
  | _ => st
  end.

(** Name 0 is silently ignored. *)
Definition delete_program (program : GLuint) (st : gl_state) : gl_state :=
  if (program =? 0)%N then st
  else
    match objects st !! program with
    | Some (Program p) => foldr reap (remove_object program st) (pr_attached p)
    | _ => st
    end.

Definition glDeleteShader (shader : GLuint) : M unit := λ st,
  (tt, delete_shader shader st, [EDeleteShader shader]).

Definition glDeleteProgram (program : GLuint) : M unit := λ st,
  (tt, delete_program program st, [EDeleteProgram program]).

Section Loader.

Variable env : collaborators.

(** *** Driver entry points *)

Definition glCreateShader (t : shader_type) : M GLuint := λ st,
  (N.succ (last_name st),
   {| objects := <[N.succ (last_name st) := Shader (new_shader t)]> (objects st);
      last_name := N.succ (last_name st) |},
   [ECreateShader t (N.succ (last_name st))]).

Definition glCreateProgram : M GLuint := λ st,
  (N.succ (last_name st),
   {| objects := <[N.succ (last_name st) := Program new_program]> (objects st);
      last_name := N.succ (last_name st) |},
   [ECreateProgram (N.succ (last_name st))]).

Definition glShaderSource (shader : GLuint) (strs : list string) : M unit := λ st,
  (tt, shader_source shader strs st, [EShaderSource shader strs]).

Definition compile_shader (shader : GLuint) (st : gl_state) : gl_state :=
  match objects st !! shader with
  | Some (Shader s) =>
      set_object shader
        (Shader (with_status s (compile env (sh_type s) (sh_source s)))) st
  | _ => st
  end.

Definition glCompileShader (shader : GLuint) : M unit := λ st,
  (tt, compile_shader shader st, [ECompileShader shader]).

(** Every creation succeeds here, so the loader only queries objects that
    exist and every query writes its answer.  The 0 reported for any other
    name is never read by the loader; what a query that writes nothing
    leaves in the loader's variable is modelled in [Native]. *)
Definition get_shaderiv (shader : GLuint) (p : pname) (st : gl_state) : GLint :=
  match objects st !! shader with
  | Some (Shader s) => shader_param s p
  | _ => 0
  end.

Definition glGetShaderiv (shader : GLuint) (p : pname) : M GLint := λ st,
  (get_shaderiv shader p st, st, [EGetShaderiv shader p (get_shaderiv shader p st)]).

Definition get_programiv (program : GLuint) (p : pname) (st : gl_state) : GLint :=
  match objects st !! program with
  | Some (Program pr) => program_param pr p
  | _ => 0
  end.

Definition glGetProgramiv (program : GLuint) (p : pname) : M GLint := λ st,
  (get_programiv program p st, st,
   [EGetProgramiv program p (get_programiv program p st)]).

Definition shader_info_log (shader : GLuint) (bufSize : GLint) (buf : string)
  (st : gl_state) : string :=
  match objects st !! shader with
  | Some (Shader s) => write_log (sh_log s) bufSize buf
  | _ => buf
  end.

Definition glGetShaderInfoLog (shader : GLuint) (bufSize : GLint) (buf : string)
  : M string := λ st,
  (shader_info_log shader bufSize buf st, st,
   [EGetShaderInfoLog shader bufSize (shader_info_log shader bufSize buf st)]).

Definition program_info_log (program : GLuint) (bufSize : GLint) (buf : string)
  (st : gl_state) : string :=
  match objects st !! program with
  | Some (Program p) => write_log (pr_log p) bufSize buf
  | _ => buf
  end.

Definition glGetProgramInfoLog (program : GLuint) (bufSize : GLint) (buf : string)
  : M string := λ st,
  (program_info_log program bufSize buf st, st,
   [EGetProgramInfoLog program bufSize (program_info_log program bufSize buf st)]).

Definition glAttachShader (program shader : GLuint) : M unit := λ st,
  (tt, attach_shader program shader st, [EAttachShader program shader]).

Definition link_program (program : GLuint) (st : gl_state) : gl_state :=
  match objects st !! program with
  | Some (Program p) =>
      set_object program
        (Program (with_link p (link env (attached_shaders (objects st) (pr_attached p)))))
        st
  | _ => st
  end.

Definition glLinkProgram (program : GLuint) : M unit := λ st,
  (tt, link_program program st, [ELinkProgram program]).

Definition glDetachShader (program shader : GLuint) : M unit := λ st,
  (tt, detach_shader program shader st, [EDetachShader program shader]).

(** *** The other collaborators *)

Definition fs_utils_read_asset_raw (p : path) : M (list Byte.byte) := λ st,
  (read_asset_raw env p, st, [EReadAsset p]).

Definition LOG_ERROR (msg : string) : M unit := λ st, (tt, st, [ELogError msg]).

(** Modelled from the spec: [o->init(h, d)] of the absent [GLObject].  An
    accepting [init] takes ownership of [h] with deleter [d].  Whether it
    accepts is the parameter [object_init]; whether a refusing [init] has
    stored [h] and [d] all the same is the parameter
    [init_binds_on_refusal]. *)
Definition GLObject_init (o : GLObject) (h : GLuint) (d : Deleter)
  : M (bool * GLObject) := λ st,
  ((object_init env h,
    if object_init env h || init_binds_on_refusal env
    then {| name := h; deleter := Some d |} else o),
   st, [EInit h (object_init env h)]).

(** Modelled from the spec: the destructor of the absent [GLObject], run when
    a wrapper goes out of scope; what the wrapper holds is released through
    its deleter. *)
Definition GLObject_destroy (o : GLObject) : M unit :=
  match deleter o with
  | Some d => d (name o)
  | None => ret tt
  end.

(** *** [gl::load_shaders] over a driver at its best

    Each query writes the variable it is handed, so [result] and
    [info_log_length] are bound to the answer of the query just made.  The
    buffer is sized with the [int] sum the source computes; that the
    allocation may fail is modelled in [Native]. *)

Definition gl_version : string :=
  if android env
  then "#version 300 es" +:+ nl +:+ "precision highp float;" +:+ nl
  else "#version 410 core" +:+ nl.

Definition empty (s : string) : bool :=
  match s with EmptyString => true | _ => false end.

Definition load_shaders (vertex_file_path fragment_file_path : path)
  : M UniqueGLObject :=
  call vs := glCreateShader GL_VERTEX_SHADER in
  call fs := glCreateShader GL_FRAGMENT_SHADER in
  call vs_code_raw := fs_utils_read_asset_raw vertex_file_path in
  let vs_code := string_of_list_byte vs_code_raw in
  call fs_code_raw := fs_utils_read_asset_raw fragment_file_path in
  let fs_code := string_of_list_byte fs_code_raw in
  if empty vs_code || empty fs_code then
    LOG_ERROR ("Couldn't open shader: " +:+ vertex_file_path) ;;;
    ret None
  else
    glShaderSource vs [gl_version; vs_code] ;;;
    glCompileShader vs ;;;
    call result := glGetShaderiv vs GL_COMPILE_STATUS in
    call info_log_length := glGetShaderiv vs GL_INFO_LOG_LENGTH in
    if result =? 0 then
      call vertex_shader_error_message :=
        glGetShaderInfoLog vs info_log_length
          (vector_char (Z.to_nat (int_add info_log_length 1))) in
      LOG_ERROR ("Error compiling vertex shader: "
                 +:+ c_str vertex_shader_error_message +:+ nl) ;;;
      ret None
    else
      glShaderSource fs [gl_version; fs_code] ;;;
      glCompileShader fs ;;;
      call result := glGetShaderiv fs GL_COMPILE_STATUS in
      call info_log_length := glGetShaderiv fs GL_INFO_LOG_LENGTH in
      if result =? 0 then
        call fragment_shader_error_message :=
          glGetShaderInfoLog fs info_log_length
            (vector_char (Z.to_nat (int_add info_log_length 1))) in
        LOG_ERROR ("Error compiling fragment shader: "
                   +:+ c_str fragment_shader_error_message +:+ nl) ;;;
        ret None
      else
        call program := glCreateProgram in
        glAttachShader program vs ;;;
        glAttachShader program fs ;;;
        glLinkProgram program ;;;
        call result := glGetProgramiv program GL_LINK_STATUS in
        call info_log_length := glGetProgramiv program GL_INFO_LOG_LENGTH in
        if result =? 0 then
          call program_error_message :=
            glGetProgramInfoLog program info_log_length
              (vector_char (Z.to_nat (int_add info_log_length 1))) in
          LOG_ERROR ("Error linking shader program: "
                     +:+ c_str program_error_message +:+ nl) ;;;
          ret None
        else
          glDetachShader program vs ;;;
          glDetachShader program fs ;;;
          glDeleteShader vs ;;;
          glDeleteShader fs ;;;
          call r := GLObject_init make_unique_GLObject program glDeleteProgram in
          if negb r.1 then
            GLObject_destroy r.2 ;;;
            ret None
          else ret (Some r.2).

End Loader.

(** ** What a call is expected to do

    The names, objects, states and traces below are written from the
    control flow the spec describes; the lemmas further down show that
    [load_shaders] produces exactly these. *)

Inductive outcome :=
| AssetMissing
| VertexCompileFailed
| FragmentCompileFailed
| LinkFailed
| InitRefused
| Loaded.

Inductive stage :=
| ReadVertex
| ReadFragment
| Validate
| CompileVertex
| CompileFragment
| LinkProgram
| Cleanup
| Wrap.

#[global] Instance stage_eq_dec : EqDecision stage.
Proof. solve_decision. Defined.

(** The order of §2 of the spec. *)
Definition pipeline : list stage :=
  [ReadVertex; ReadFragment; Validate; CompileVertex; CompileFragment;
   LinkProgram; Cleanup; Wrap].

Section Expected.

Variable env : collaborators.
Variables vp fp : path.
Variable st : gl_state.

(** The three names the driver hands out during one call. *)
Definition vs_name : GLuint := N.succ (last_name st).
Definition fs_name : GLuint := N.succ (N.succ (last_name st)).
Definition program_name : GLuint := N.succ (N.succ (N.succ (last_name st))).

Definition vs_code : string := string_of_list_byte (read_asset_raw env vp).
Definition fs_code : string := string_of_list_byte (read_asset_raw env fp).

(** The text the compiler sees for a stage. *)
Definition shader_text (code : string) : string :=
  String.concat "" (c_str <$> [gl_version env; code]).

Definition compiled (t : shader_type) (code : string) : shader_obj :=
  {| sh_type := t; sh_source := shader_text code;
     sh_status := (compile env t (shader_text code)).1;
     sh_log := (compile env t (shader_text code)).2;
     sh_flagged := false |}.

Definition vertex_obj : shader_obj := compiled GL_VERTEX_SHADER vs_code.
Definition fragment_obj : shader_obj := compiled GL_FRAGMENT_SHADER fs_code.

Definition linked (attached : list GLuint) : program_obj :=
  {| pr_attached := attached;
     pr_status := (link env [vertex_obj; fragment_obj]).1;
     pr_log := (link env [vertex_obj; fragment_obj]).2 |}.

(** The buffer after the driver has copied an info log into it, sized and
    queried the way the loader does. *)
Definition retrieved (log : string) : string :=
  write_log log (info_log_length_of log)
    (vector_char (Z.to_nat (int_add (info_log_length_of log) 1))).

Definition assets_present : bool := negb (empty vs_code || empty fs_code).

Definition outcome_of : outcome :=
  if negb assets_present then AssetMissing
  else if negb (sh_status vertex_obj) then VertexCompileFailed
  else if negb (sh_status fragment_obj) then FragmentCompileFailed
  else if negb (pr_status (linked [])) then LinkFailed
  else if negb (object_init env program_name) then InitRefused
  else Loaded.

(** *** Traces *)

Definition ev_create : list event :=
  [ECreateShader GL_VERTEX_SHADER vs_name;
   ECreateShader GL_FRAGMENT_SHADER fs_name].

Definition ev_read : list event := [EReadAsset vp; EReadAsset fp].

Definition ev_missing : list event :=
  [ELogError ("Couldn't open shader: " +:+ vp)].

Definition ev_compile (h : GLuint) (s : shader_obj) (code : string) : list event :=
  [EShaderSource h [gl_version env; code];
   ECompileShader h;
   EGetShaderiv h GL_COMPILE_STATUS (of_bool (sh_status s));
   EGetShaderiv h GL_INFO_LOG_LENGTH (info_log_length_of (sh_log s))].

Definition ev_shader_error (h : GLuint) (label log : string) : list event :=
  [EGetShaderInfoLog h (info_log_length_of log) (retrieved log);
   ELogError (label +:+ c_str (retrieved log) +:+ nl)].

Definition ev_link : list event :=
  [ECreateProgram program_name;
   EAttachShader program_name vs_name;
   EAttachShader program_name fs_name;
   ELinkProgram program_name;
   EGetProgramiv program_name GL_LINK_STATUS (of_bool (pr_status (linked [])));
   EGetProgramiv program_name GL_INFO_LOG_LENGTH
     (info_log_length_of (pr_log (linked [])))].

Definition ev_link_error : list event :=
  [EGetProgramInfoLog program_name (info_log_length_of (pr_log (linked [])))
     (retrieved (pr_log (linked [])));
   ELogError ("Error linking shader program: "
              +:+ c_str (retrieved (pr_log (linked []))) +:+ nl)].

Definition ev_cleanup : list event :=
  [EDetachShader program_name vs_name;
   EDetachShader program_name fs_name;
   EDeleteShader vs_name;
   EDeleteShader fs_name].

(** [init], and on refusal the wrapper going out of scope. *)
Definition ev_wrap : list event :=
  EInit program_name (object_init env program_name)
  :: (if object_init env program_name || negb (init_binds_on_refusal env)
      then [] else [EDeleteProgram program_name]).

Definition ev_vertex_error : list event :=
  ev_shader_error vs_name "Error compiling vertex shader: " (sh_log vertex_obj).

Definition ev_fragment_error : list event :=
  ev_shader_error fs_name "Error compiling fragment shader: " (sh_log fragment_obj).

Definition expected_trace (o : outcome) : list event :=
  ev_create ++ ev_read ++
  match o with
  | AssetMissing => ev_missing
  | VertexCompileFailed =>
      ev_compile vs_name vertex_obj vs_code ++ ev_vertex_error
  | FragmentCompileFailed =>
      ev_compile vs_name vertex_obj vs_code ++
      ev_compile fs_name fragment_obj fs_code ++ ev_fragment_error
  | LinkFailed =>
      ev_compile vs_name vertex_obj vs_code ++
      ev_compile fs_name fragment_obj fs_code ++ ev_link ++ ev_link_error
  | InitRefused | Loaded =>
      ev_compile vs_name vertex_obj vs_code ++
      ev_compile fs_name fragment_obj fs_code ++ ev_link ++ ev_cleanup ++ ev_wrap
  end.

Definition expected_result (o : outcome) : UniqueGLObject :=
  match o with
  | Loaded => Some {| name := program_name; deleter := Some glDeleteProgram |}
  | _ => None
  end.

(** *** States *)

Definition st_created : gl_state :=
  {| objects := <[fs_name := Shader (new_shader GL_FRAGMENT_SHADER)]>
                  (<[vs_name := Shader (new_shader GL_VERTEX_SHADER)]> (objects st));
     last_name := fs_name |}.

Definition st_vertex : gl_state :=
  set_object vs_name (Shader vertex_obj) st_created.

Definition st_fragment : gl_state :=
  set_object fs_name (Shader fragment_obj) st_vertex.

Definition st_linked (attached : list GLuint) : gl_state :=
  {| objects := <[program_name := Program (linked attached)]> (objects st_fragment);
     last_name := program_name |}.

Definition st_cleaned : gl_state :=
  delete_shader fs_name (delete_shader vs_name (st_linked [])).

Definition expected_state (o : outcome) : gl_state :=
  match o with
  | AssetMissing => st_created
  | VertexCompileFailed => st_vertex
  | FragmentCompileFailed => st_fragment
  | LinkFailed => st_linked [vs_name; fs_name]
  | InitRefused =>
      if init_binds_on_refusal env
      then delete_program program_name st_cleaned else st_cleaned
  | Loaded => st_cleaned
  end.

(** *** The linear pass, stage by stage *)

Definition stage_passes (s : stage) : bool :=
  match s with
  | ReadVertex | ReadFragment | Cleanup => true
  | Validate => assets_present
  | CompileVertex => sh_status vertex_obj
  | CompileFragment => sh_status fragment_obj
  | LinkProgram => pr_status (linked [])
  | Wrap => object_init env program_name
  end.

Definition stage_events (s : stage) : list event :=
  match s with
  | ReadVertex => [EReadAsset vp]
  | ReadFragment => [EReadAsset fp]
  | Validate => if assets_present then [] else ev_missing
  | CompileVertex =>
      ev_compile vs_name vertex_obj vs_code ++
      (if sh_status vertex_obj then [] else ev_vertex_error)
  | CompileFragment =>
      ev_compile fs_name fragment_obj fs_code ++
      (if sh_status fragment_obj then [] else ev_fragment_error)
  | LinkProgram =>
      ev_link ++ (if pr_status (linked []) then [] else ev_link_error)
  | Cleanup => ev_cleanup
  | Wrap => ev_wrap
  end.

(** Run the stages in order; the first stage that fails is the last to run. *)
Fixpoint run_pipeline (ss : list stage) : list event :=
  match ss with
  | [] => []
  | s :: ss' => stage_events s ++ (if stage_passes s then run_pipeline ss' else [])
  end.

End Expected.

(** ** Well-formed driver states

    Every name in use, and every name on an attachment list, was handed out
    by the driver. *)

Definition attached_of (o : gl_object) : list GLuint :=
  match o with
  | Program p => pr_attached p
  | Shader _ => []
  end.

Definition known (st : gl_state) (k : N) (o : gl_object) : Prop :=
  (k ≤ last_name st)%N ∧ Forall (λ h, (h ≤ last_name st)%N) (attached_of o).

Definition wf (st : gl_state) : bool :=
  bool_decide (map_Forall (known st) (objects st)).

(** ** Reading a trace *)

Definition logged (tr : list event) : list string :=
  omap (λ e, match e with ELogError msg => Some msg | _ => None end) tr.

(** The diagnostic texts the driver handed back during a call. *)
Definition diagnostics (tr : list event) : list string :=
  omap (λ e, match e with
             | EGetShaderInfoLog _ _ buf | EGetProgramInfoLog _ _ buf =>
                 Some (c_str buf)
             | _ => None
             end) tr.

Definition contains (msg d : string) : Prop :=
  ∃ pre post, msg = pre +:+ d +:+ post.

(** Some logged message contains a diagnostic text obtained from the driver. *)
Definition reports_diagnostic (tr : list event) : Prop :=
  ∃ msg d, msg ∈ logged tr ∧ d ∈ diagnostics tr ∧ contains msg d.

Definition is_compiler_call (e : event) : bool :=
  match e with
  | EShaderSource _ _ | ECompileShader _ => true
  | _ => false
  end.



(** No info log is too long for the [int] the loader sizes its buffer with. *)
Definition log_fits (log : string) : Prop :=
  Z.of_nat (String.length log) + 2 < 2 ^ 31.

Definition logs_fit (env : collaborators) : Prop :=
  (∀ t src, log_fits (compile env t src).2) ∧ (∀ l, log_fits (link env l).2).

(** ** Concrete collaborators *)

Definition demo_env (compile_v compile_f link_ok init_ok : bool) : collaborators :=
  {| android := false;
     read_asset_raw := λ p,
       if String.eqb p "v.glsl" then list_byte_of_string "void main(){}"
       else if String.eqb p "f.glsl" then list_byte_of_string "void main(){}"
       else [];
     compile := λ t _,
       match t with
       | GL_VERTEX_SHADER => (compile_v, if compile_v then "" else "0:1: syntax error")
       | GL_FRAGMENT_SHADER => (compile_f, if compile_f then "" else "0:2: syntax error")
       end;
     link := λ _, (link_ok, if link_ok then "" else "link error");
     object_init := λ _, init_ok;
     init_binds_on_refusal := false |}.

Definition st0 : gl_state := {| objects := ∅; last_name := 0%N |}.

(** ** Properties of a call, as the spec words them *)


Definition created_shaders (tr : list event) : list GLuint :=
  omap (λ e, match e with ECreateShader _ h => Some h | _ => None end) tr.


Definition is_delete_program (e : event) : bool :=
  match e with
  | EDeleteProgram _ => true
  | _ => false
  end.

Definition is_loaded (r : UniqueGLObject) : bool :=
  match r with
  | Some _ => true
  | None => false
  end.

(** The failures of §7 of the spec. *)
Definition is_failure (o : outcome) : bool :=
  match o with
  | AssetMissing | VertexCompileFailed | FragmentCompileFailed | LinkFailed => true
  | InitRefused | Loaded => false
  end.

(** The failures the driver has a diagnostic for. *)
Definition is_driver_failure (o : outcome) : bool :=
  match o with
  | VertexCompileFailed | FragmentCompileFailed | LinkFailed => true
  | AssetMissing | InitRefused | Loaded => false
  end.

Definition passes_link_check (o : outcome) : bool :=
  match o with
  | InitRefused | Loaded => true
  | AssetMissing | VertexCompileFailed | FragmentCompileFailed | LinkFailed => false
  end.

(** The driver's own diagnostic for a failure, as a C string. *)
Definition failure_diagnostic (env : collaborators) (vp fp : path) (o : outcome)
  : list string :=
  match o with
  | VertexCompileFailed => [c_str (sh_log (vertex_obj env vp))]
  | FragmentCompileFailed => [c_str (sh_log (fragment_obj env fp))]
  | LinkFailed => [c_str (pr_log (linked env vp fp []))]
  | AssetMissing | InitRefused | Loaded => []
  end.

Definition failure_message (env : collaborators) (vp fp : path) (o : outcome)
  : list string :=
  match o with
  | AssetMissing => ["Couldn't open shader: " +:+ vp]
  | VertexCompileFailed =>
      ["Error compiling vertex shader: "
       +:+ c_str (sh_log (vertex_obj env vp)) +:+ nl]
  | FragmentCompileFailed =>
      ["Error compiling fragment shader: "
       +:+ c_str (sh_log (fragment_obj env fp)) +:+ nl]
  | LinkFailed =>
      ["Error linking shader program: "
       +:+ c_str (pr_log (linked env vp fp [])) +:+ nl]
  | InitRefused | Loaded => []
  end.

(** What [glShaderSource] may be handed during a call: the preamble first,
    then the text of the asset that belongs to the shader. *)
Definition source_upload_ok (env : collaborators) (vp fp : path) (st : gl_state)
  (e : event) : Prop :=
  match e with
  | EShaderSource h strs =>
      (h = vs_name st ∧ strs = [gl_version env; vs_code env vp]) ∨
      (h = fs_name st ∧ strs = [gl_version env; fs_code env fp])
  | _ => True
  end.

(** Every [glCompileShader] call comes right after the upload of the
    preamble and one source text to the same shader. *)
Fixpoint sourced_before_compile (preamble : string) (prev : option event)
  (tr : list event) : Prop :=
  match tr with
  | [] => True
  | e :: tr' =>
      match e with
      | ECompileShader h => ∃ code, prev = Some (EShaderSource h [preamble; code])
      | _ => True
      end ∧ sourced_before_compile preamble (Some e) tr'
  end.

(** ** Further readings of a call *)

(** Calls that give an object back to the driver. *)
Definition is_release (e : event) : bool :=
  match e with
  | EDetachShader _ _ | EDeleteShader _ | EDeleteProgram _ => true
  | _ => false
  end.

(** A table that already holds a linked program under name 1. *)
Definition st_busy : gl_state :=
  {| objects := {[ 1%N := Program {| pr_attached := []; pr_status := true;
                                     pr_log := "" |} ]};
     last_name := 1%N |}.

(** A vertex asset whose first byte is NUL. *)
Definition nul_env : collaborators :=
  {| android := true;
     read_asset_raw := λ p,
       if String.eqb p "nul.glsl"
       then list_byte_of_string (String NUL "void main(){}")
       else list_byte_of_string "void main(){}";
     compile := λ _ src, (negb (empty src), "");
     link := λ _, (true, "");
     object_init := λ _, true;
     init_binds_on_refusal := false |}.

(** A compiler that rejects every vertex shader without saying why. *)
Definition quiet_env : collaborators :=
  {| android := false;
     read_asset_raw := λ _, list_byte_of_string "void main(){}";
     compile := λ t _,
       match t with
       | GL_VERTEX_SHADER => (false, "")
       | GL_FRAGMENT_SHADER => (true, "")
       end;
     link := λ _, (true, "");
     object_init := λ _, true;
     init_binds_on_refusal := false |}.

(** * The loader over a driver that may fail

    The model above takes the driver at its best: every creation hands out
    a name, every query is answered, and the buffer for an info log can
    always be allocated.  [Native] keeps what the OpenGL reference and C++
    allow beyond that, and is the model the statements about failing
    drivers are made on:
    - [glCreateShader] and [glCreateProgram] may return 0;
    - 0 names no object, a call on a name that is not an object of the right
      kind changes nothing, and a query on such a name writes nothing
      through its pointer, so the loader's one [result] variable keeps the
      value of an earlier query and [info_log_length] may never be written;
    - the driver's answer to GL_INFO_LOG_LENGTH is the driver's own;
    - [std::vector<char> v(n)] throws [std::length_error] for a negative
      [n], and [&v[0]] on an empty vector or a read of an [int] that was
      never written has no defined behaviour. *)

Module Native.

Inductive completion (A : Type) :=
| Returned (a : A)
| Threw
| Undefined.

Arguments Returned {A} a.
Arguments Threw {A}.
Arguments Undefined {A}.

Definition MX (A : Type) : Type :=
  gl_state → completion A * gl_state * list event.

Definition ret {A} (a : A) : MX A := λ st, (Returned a, st, []).

Definition throw {A} : MX A := λ st, (Threw, st, []).

Definition undefined {A} : MX A := λ st, (Undefined, st, []).

(** A call that throws or goes undefined ends the run where it stands. *)
Definition bind {A B} (m : MX A) (k : A → MX B) : MX B := λ st,
  match m st with
  | (Returned a, st1, t1) =>
      match k a st1 with
      | (c, st2, t2) => (c, st2, t1 ++ t2)
      end
  | (Threw, st1, t1) => (Threw, st1, t1)
  | (Undefined, st1, t1) => (Undefined, st1, t1)
  end.

Definition lift {A} (m : M A) : MX A := λ st,
  match m st with
  | (a, st1, t1) => (Returned a, st1, t1)
  end.

Declare Scope native_scope.
Notation "'call' x ':=' c 'in' k" := (bind c (λ x, k))
  (at level 10, x name, c at level 100, k at level 200) : native_scope.
Notation "c ';;;' k" := (bind c (λ _, k))
  (at level 100, k at level 200, right associativity) : native_scope.
Local Open Scope native_scope.

(** What the driver decides beyond compiling and linking: whether the
    creation that would hand out a given name succeeds, and the length it
    reports for an info log. *)
Record driver := {
  create_ok : GLuint → bool;
  log_length : string → GLint
}.

(** The object a name stands for; 0 stands for none. *)
Definition named (h : GLuint) (st : gl_state) : option gl_object :=
  if (h =? 0)%N then None else objects st !! h.

(** A call on names of which one is 0 changes nothing. *)
Definition on_names (hs : list GLuint) (f : gl_state → gl_state)
  (st : gl_state) : gl_state :=
  if existsb (N.eqb 0) hs then st else f st.

(** [*p = v] when the query wrote [v], nothing otherwise. *)
Definition assign (var w : option GLint) : option GLint :=
  match w with
  | Some v => Some v
  | None => var
  end.

(** Reading a local [int]. *)
Definition rvalue (var : option GLint) : MX GLint :=
  match var with
  | Some v => ret v
  | None => undefined
  end.

(** [std::vector<char> v(n)] with an [int] argument. *)
Definition std_vector_char (n : Z) : MX string :=
  if n <? 0 then throw else ret (vector_char (Z.to_nat n)).

(** [&v[0]]. *)
Definition data0 (buf : string) : MX string :=
  if empty buf then undefined else ret buf.

Section Loader.

Variable d : driver.
Variable env : collaborators.

(** A failed creation returns 0 and uses up the name it would have handed
    out, so that each creation of a call has a fate of its own. *)
Definition glCreateShader (t : shader_type) : MX GLuint := λ st,
  if create_ok d (N.succ (last_name st))
  then (Returned (N.succ (last_name st)),
        {| objects := <[N.succ (last_name st) := Shader (new_shader t)]> (objects st);
           last_name := N.succ (last_name st) |},
        [ECreateShader t (N.succ (last_name st))])
  else (Returned 0%N,
        {| objects := objects st; last_name := N.succ (last_name st) |},
        [ECreateShader t 0%N]).

Definition glCreateProgram : MX GLuint := λ st,
  if create_ok d (N.succ (last_name st))
  then (Returned (N.succ (last_name st)),
        {| objects := <[N.succ (last_name st) := Program new_program]> (objects st);
           last_name := N.succ (last_name st) |},
        [ECreateProgram (N.succ (last_name st))])
  else (Returned 0%N,
        {| objects := objects st; last_name := N.succ (last_name st) |},
        [ECreateProgram 0%N]).

Definition glShaderSource (shader : GLuint) (strs : list string) : MX unit := λ st,
  (Returned tt, on_names [shader] (shader_source shader strs) st,
   [EShaderSource shader strs]).

Definition glCompileShader (shader : GLuint) : MX unit := λ st,
  (Returned tt, on_names [shader] (compile_shader env shader) st,
   [ECompileShader shader]).

Definition shader_answer (s : shader_obj) (p : pname) : GLint :=
  match p with
  | GL_INFO_LOG_LENGTH => log_length d (sh_log s)
  | _ => shader_param s p
  end.

Definition program_answer (pr : program_obj) (p : pname) : GLint :=
  match p with
  | GL_INFO_LOG_LENGTH => log_length d (pr_log pr)
  | _ => program_param pr p
  end.

(** The value written through the pointer, if any. *)
Definition glGetShaderiv (shader : GLuint) (p : pname) : MX (option GLint) := λ st,
  match named shader st with
  | Some (Shader s) =>
      (Returned (Some (shader_answer s p)), st,
       [EGetShaderiv shader p (shader_answer s p)])
  | _ => (Returned None, st, [EGetShaderivError shader p])
  end.

Definition glGetProgramiv (program : GLuint) (p : pname) : MX (option GLint) := λ st,
  match named program st with
  | Some (Program pr) =>
      (Returned (Some (program_answer pr p)), st,
       [EGetProgramiv program p (program_answer pr p)])
  | _ => (Returned None, st, [EGetProgramivError program p])
  end.

Definition shader_info_log (shader : GLuint) (bufSize : GLint) (buf : string)
  (st : gl_state) : string :=
  match named shader st with
  | Some (Shader s) => write_log (sh_log s) bufSize buf
  | _ => buf
  end.

Definition glGetShaderInfoLog (shader : GLuint) (bufSize : GLint) (buf : string)
  : MX string := λ st,
  (Returned (shader_info_log shader bufSize buf st), st,
   [EGetShaderInfoLog shader bufSize (shader_info_log shader bufSize buf st)]).

Definition program_info_log (program : GLuint) (bufSize : GLint) (buf : string)
  (st : gl_state) : string :=
  match named program st with
  | Some (Program p) => write_log (pr_log p) bufSize buf
  | _ => buf
  end.

Definition glGetProgramInfoLog (program : GLuint) (bufSize : GLint) (buf : string)
  : MX string := λ st,
  (Returned (program_info_log program bufSize buf st), st,
   [EGetProgramInfoLog program bufSize (program_info_log program bufSize buf st)]).

Definition glAttachShader (program shader : GLuint) : MX unit := λ st,
  (Returned tt, on_names [program; shader] (attach_shader program shader) st,
   [EAttachShader program shader]).

Definition glLinkProgram (program : GLuint) : MX unit := λ st,
  (Returned tt, on_names [program] (link_program env program) st,
   [ELinkProgram program]).

Definition glDetachShader (program shader : GLuint) : MX unit := λ st,
  (Returned tt, on_names [program; shader] (detach_shader program shader) st,
   [EDetachShader program shader]).

Definition glDeleteShader (shader : GLuint) : MX unit := λ st,
  (Returned tt, on_names [shader] (delete_shader shader) st,
   [EDeleteShader shader]).

(** [gl::load_shaders], with its two locals [result] and [info_log_length]
    as the variables they are: written only when a query writes them. *)
Definition load_shaders (vertex_file_path fragment_file_path : path)
  : MX UniqueGLObject :=
  call vs := glCreateShader GL_VERTEX_SHADER in
  call fs := glCreateShader GL_FRAGMENT_SHADER in
  call vs_code_raw := lift (fs_utils_read_asset_raw env vertex_file_path) in
  let vs_code := string_of_list_byte vs_code_raw in
  call fs_code_raw := lift (fs_utils_read_asset_raw env fragment_file_path) in
  let fs_code := string_of_list_byte fs_code_raw in
  if empty vs_code || empty fs_code then
    lift (LOG_ERROR ("Couldn't open shader: " +:+ vertex_file_path)) ;;;
    ret None
  else
    let result := Some 0 in
    let info_log_length := None in
    glShaderSource vs [gl_version env; vs_code] ;;;
    glCompileShader vs ;;;
    call w := glGetShaderiv vs GL_COMPILE_STATUS in
    let result := assign result w in
    call w := glGetShaderiv vs GL_INFO_LOG_LENGTH in
    let info_log_length := assign info_log_length w in
    call r := rvalue result in
    if r =? 0 then
      call n := rvalue info_log_length in
      call vertex_shader_error_message := std_vector_char (int_add n 1) in
      call buf := data0 vertex_shader_error_message in
      call buf := glGetShaderInfoLog vs n buf in
      lift (LOG_ERROR ("Error compiling vertex shader: " +:+ c_str buf +:+ nl)) ;;;
      ret None
    else
      glShaderSource fs [gl_version env; fs_code] ;;;
      glCompileShader fs ;;;
      call w := glGetShaderiv fs GL_COMPILE_STATUS in
      let result := assign result w in
      call w := glGetShaderiv fs GL_INFO_LOG_LENGTH in
      let info_log_length := assign info_log_length w in
      call r := rvalue result in
      if r =? 0 then
        call n := rvalue info_log_length in
        call fragment_shader_error_message := std_vector_char (int_add n 1) in
        call buf := data0 fragment_shader_error_message in
        call buf := glGetShaderInfoLog fs n buf in
        lift (LOG_ERROR ("Error compiling fragment shader: " +:+ c_str buf +:+ nl)) ;;;
        ret None
      else
        call program := glCreateProgram in
        glAttachShader program vs ;;;
        glAttachShader program fs ;;;
        glLinkProgram program ;;;
        call w := glGetProgramiv program GL_LINK_STATUS in
        let result := assign result w in
        call w := glGetProgramiv program GL_INFO_LOG_LENGTH in
        let info_log_length := assign info_log_length w in
        call r := rvalue result in
        if r =? 0 then
          call n := rvalue info_log_length in
          call program_error_message := std_vector_char (int_add n 1) in
          call buf := data0 program_error_message in
          call buf := glGetProgramInfoLog program n buf in
          lift (LOG_ERROR ("Error linking shader program: " +:+ c_str buf +:+ nl)) ;;;
          ret None
        else
          glDetachShader program vs ;;;
          glDetachShader program fs ;;;
          glDeleteShader vs ;;;
          glDeleteShader fs ;;;
          call r := lift (GLObject_init env make_unique_GLObject program
                            glDeleteProgram) in
          if negb r.1 then
            lift (GLObject_destroy r.2) ;;;
            ret None
          else ret (Some r.2).

End Loader.

(** ** What a call is expected to do when every creation succeeds *)

Section Expected.

Variable d : driver.
Variable env : collaborators.
Variables vp fp : path.
Variable st : gl_state.

(** The driver hands out a name at each of the three creations of a call. *)
Definition reliable : bool :=
  create_ok d (vs_name st) && create_ok d (fs_name st)
  && create_ok d (program_name st).

(** The size the loader asks for when it allocates the buffer for a log. *)
Definition buffer_size (log : string) : Z := int_add (log_length d log) 1.

(** How reporting a failure with info log [log] ends. *)
Definition report (log : string) : completion UniqueGLObject :=
  if buffer_size log <? 0 then Threw
  else if buffer_size log =? 0 then Undefined
  else Returned None.

Definition fetched (log : string) : string :=
  write_log log (log_length d log) (vector_char (Z.to_nat (buffer_size log))).

Definition ev_compile (h : GLuint) (s : shader_obj) (code : string) : list event :=
  [EShaderSource h [gl_version env; code];
   ECompileShader h;
   EGetShaderiv h GL_COMPILE_STATUS (of_bool (sh_status s));
   EGetShaderiv h GL_INFO_LOG_LENGTH (log_length d (sh_log s))].

Definition ev_shader_error (h : GLuint) (label log : string) : list event :=
  match report log with
  | Returned _ =>
      [EGetShaderInfoLog h (log_length d log) (fetched log);
       ELogError (label +:+ c_str (fetched log) +:+ nl)]
  | _ => []
  end.

Definition ev_link : list event :=
  [ECreateProgram (program_name st);
   EAttachShader (program_name st) (vs_name st);
   EAttachShader (program_name st) (fs_name st);
   ELinkProgram (program_name st);
   EGetProgramiv (program_name st) GL_LINK_STATUS
     (of_bool (pr_status (linked env vp fp [])));
   EGetProgramiv (program_name st) GL_INFO_LOG_LENGTH
     (log_length d (pr_log (linked env vp fp [])))].

Definition ev_link_error : list event :=
  match report (pr_log (linked env vp fp [])) with
  | Returned _ =>
      [EGetProgramInfoLog (program_name st)
         (log_length d (pr_log (linked env vp fp [])))
         (fetched (pr_log (linked env vp fp [])));
       ELogError ("Error linking shader program: "
                  +:+ c_str (fetched (pr_log (linked env vp fp []))) +:+ nl)]
  | _ => []
  end.

Definition ev_vertex : list event :=
  ev_compile (vs_name st) (vertex_obj env vp) (vs_code env vp).

Definition ev_fragment : list event :=
  ev_compile (fs_name st) (fragment_obj env fp) (fs_code env fp).

Definition ev_vertex_error : list event :=
  ev_shader_error (vs_name st) "Error compiling vertex shader: "
    (sh_log (vertex_obj env vp)).

Definition ev_fragment_error : list event :=
  ev_shader_error (fs_name st) "Error compiling fragment shader: "
    (sh_log (fragment_obj env fp)).

Definition expected_trace (o : outcome) : list event :=
  ev_create st ++ ev_read vp fp ++
  match o with
  | AssetMissing => ev_missing vp
  | VertexCompileFailed => ev_vertex ++ ev_vertex_error
  | FragmentCompileFailed => ev_vertex ++ ev_fragment ++ ev_fragment_error
  | LinkFailed => ev_vertex ++ ev_fragment ++ ev_link ++ ev_link_error
  | InitRefused | Loaded =>
      ev_vertex ++ ev_fragment ++ ev_link
      ++ ev_cleanup st ++ ev_wrap env st
  end.

Definition expected_result (o : outcome) : completion UniqueGLObject :=
  match o with
  | AssetMissing | InitRefused => Returned None
  | VertexCompileFailed => report (sh_log (vertex_obj env vp))
  | FragmentCompileFailed => report (sh_log (fragment_obj env fp))
  | LinkFailed => report (pr_log (linked env vp fp []))
  | Loaded =>
      Returned (Some {| name := program_name st; deleter := Some glDeleteProgram |})
  end.

(** *** The linear pass, stage by stage *)

Definition stage_events (s : stage) : list event :=
  match s with
  | ReadVertex => [EReadAsset vp]
  | ReadFragment => [EReadAsset fp]
  | Validate => if assets_present env vp fp then [] else ev_missing vp
  | CompileVertex =>
      ev_vertex ++ (if sh_status (vertex_obj env vp) then [] else ev_vertex_error)
  | CompileFragment =>
      ev_fragment ++ (if sh_status (fragment_obj env fp) then [] else ev_fragment_error)
  | LinkProgram =>
      ev_link ++ (if pr_status (linked env vp fp []) then [] else ev_link_error)
  | Cleanup => ev_cleanup st
  | Wrap => ev_wrap env st
  end.

Fixpoint run_pipeline (ss : list stage) : list event :=
  match ss with
  | [] => []
  | s :: ss' =>
      stage_events s
      ++ (if stage_passes env vp fp st s then run_pipeline ss' else [])
  end.

End Expected.

(** The call returned, and what it returned is a wrapper. *)
Definition is_loaded (c : completion UniqueGLObject) : bool :=
  match c with
  | Returned (Some _) => true
  | _ => false
  end.

(** An answer of the driver to a GL_LINK_STATUS query. *)
Definition is_link_answer (e : event) : bool :=
  match e with
  | EGetProgramiv _ GL_LINK_STATUS _ => true
  | _ => false
  end.

(** The diagnostic the loader holds once it has fetched the info log of the
    stage that failed. *)
Definition failure_diagnostic (d : driver) (env : collaborators) (vp fp : path)
  (o : outcome) : list string :=
  match o with
  | VertexCompileFailed => [c_str (fetched d (sh_log (vertex_obj env vp)))]
  | FragmentCompileFailed => [c_str (fetched d (sh_log (fragment_obj env fp)))]
  | LinkFailed => [c_str (fetched d (pr_log (linked env vp fp [])))]
  | AssetMissing | InitRefused | Loaded => []
  end.

(** The info log of the stage that failed. *)
Definition failure_log (env : collaborators) (vp fp : path) (o : outcome) : string :=
  match o with
  | VertexCompileFailed => sh_log (vertex_obj env vp)
  | FragmentCompileFailed => sh_log (fragment_obj env fp)
  | LinkFailed => pr_log (linked env vp fp [])
  | AssetMissing | InitRefused | Loaded => ""
  end.


(** The buffer for every info log the compiler or the linker can produce
    can be allocated and is not empty: the reported length is at least 0
    and below INT_MAX. *)
Definition buffers_ok (d : driver) (env : collaborators) : Prop :=
  (∀ t src, 0 < buffer_size d (compile env t src).2)
  ∧ (∀ l, 0 < buffer_size d (link env l).2).

(** ** Concrete drivers *)

(** A driver that creates what it is asked for and reports info-log lengths
    as the OpenGL reference defines them. *)
Definition sound_driver : driver :=
  {| create_ok := λ _, true; log_length := info_log_length_of |}.

(** As [sound_driver], but the creation that would hand out [n] fails. *)
Definition failing_at (n : GLuint) : driver :=
  {| create_ok := λ k, negb (k =? n)%N; log_length := info_log_length_of |}.

(** A driver that answers INT_MAX to every GL_INFO_LOG_LENGTH query. *)
Definition long_log_driver : driver :=
  {| create_ok := λ _, true; log_length := λ _, 2 ^ 31 - 1 |}.

End Native.

(** * Proofs *)

(** ** One step of a run *)

Lemma runs_step {A B} (m : M A) (k : A → M B) st a st1 e b st2 t2 :
  m st = (a, st1, [e]) →
  k a st1 = (b, st2, t2) →
  bind m k st = (b, st2, e :: t2).
Proof. intros Hm Hk. unfold bind. rewrite Hm. cbn. rewrite Hk. reflexivity. Qed.

Section Steps.

Variable env : collaborators.

Lemma glCreateShader_run t st :
  glCreateShader t st =
    (N.succ (last_name st),
     {| objects := <[N.succ (last_name st) := Shader (new_shader t)]> (objects st);
        last_name := N.succ (last_name st) |},
     [ECreateShader t (N.succ (last_name st))]).
Proof. reflexivity. Qed.

Lemma glCreateProgram_run st :
  glCreateProgram st =
    (N.succ (last_name st),
     {| objects := <[N.succ (last_name st) := Program new_program]> (objects st);
        last_name := N.succ (last_name st) |},
     [ECreateProgram (N.succ (last_name st))]).
Proof. reflexivity. Qed.

Lemma read_asset_run p st :
  fs_utils_read_asset_raw env p st = (read_asset_raw env p, st, [EReadAsset p]).
Proof. reflexivity. Qed.

Lemma LOG_ERROR_run msg st : LOG_ERROR msg st = (tt, st, [ELogError msg]).
Proof. reflexivity. Qed.

Lemma glShaderSource_run h strs st s :
  objects st !! h = Some (Shader s) →
  glShaderSource h strs st =
    (tt, set_object h (Shader (with_source s (String.concat "" (c_str <$> strs)))) st,
     [EShaderSource h strs]).
Proof. intros H. unfold glShaderSource, shader_source. by rewrite H. Qed.

Lemma glCompileShader_run h st s :
  objects st !! h = Some (Shader s) →
  glCompileShader env h st =
    (tt, set_object h (Shader (with_status s (compile env (sh_type s) (sh_source s)))) st,
     [ECompileShader h]).
Proof. intros H. unfold glCompileShader, compile_shader. by rewrite H. Qed.

Lemma glGetShaderiv_run h p st s :
  objects st !! h = Some (Shader s) →
  glGetShaderiv h p st = (shader_param s p, st, [EGetShaderiv h p (shader_param s p)]).
Proof. intros H. unfold glGetShaderiv, get_shaderiv. by rewrite H. Qed.

Lemma glGetShaderInfoLog_run h n buf st s :
  objects st !! h = Some (Shader s) →
  glGetShaderInfoLog h n buf st =
    (write_log (sh_log s) n buf, st,
     [EGetShaderInfoLog h n (write_log (sh_log s) n buf)]).
Proof. intros H. unfold glGetShaderInfoLog, shader_info_log. by rewrite H. Qed.

Lemma glAttachShader_run p h st pr s :
  objects st !! p = Some (Program pr) →
  objects st !! h = Some (Shader s) →
  h ∉ pr_attached pr →
  glAttachShader p h st =
    (tt, set_object p (Program (with_attached pr (pr_attached pr ++ [h]))) st,
     [EAttachShader p h]).
Proof.
  intros Hp Hh Hn. unfold glAttachShader, attach_shader. rewrite Hp, Hh.
  by rewrite bool_decide_eq_false_2.
Qed.

Lemma glLinkProgram_run p st pr :
  objects st !! p = Some (Program pr) →
  glLinkProgram env p st =
    (tt,
     set_object p
       (Program (with_link pr (link env (attached_shaders (objects st) (pr_attached pr)))))
       st,
     [ELinkProgram p]).
Proof. intros H. unfold glLinkProgram, link_program. by rewrite H. Qed.

Lemma glGetProgramiv_run h p st pr :
  objects st !! h = Some (Program pr) →
  glGetProgramiv h p st =
    (program_param pr p, st, [EGetProgramiv h p (program_param pr p)]).
Proof. intros H. unfold glGetProgramiv, get_programiv. by rewrite H. Qed.

Lemma glGetProgramInfoLog_run h n buf st pr :
  objects st !! h = Some (Program pr) →
  glGetProgramInfoLog h n buf st =
    (write_log (pr_log pr) n buf, st,
     [EGetProgramInfoLog h n (write_log (pr_log pr) n buf)]).
Proof. intros H. unfold glGetProgramInfoLog, program_info_log. by rewrite H. Qed.

Lemma glDetachShader_run p h st :
  glDetachShader p h st = (tt, detach_shader p h st, [EDetachShader p h]).
Proof. reflexivity. Qed.

Lemma glDeleteShader_run h st :
  glDeleteShader h st = (tt, delete_shader h st, [EDeleteShader h]).
Proof. reflexivity. Qed.

Lemma GLObject_init_run o h d st :
  GLObject_init env o h d st =
    ((object_init env h,
      if object_init env h || init_binds_on_refusal env
      then {| name := h; deleter := Some d |} else o),
     st, [EInit h (object_init env h)]).
Proof. reflexivity. Qed.

End Steps.

Lemma run_eq {A} (r : A * gl_state * list event) a s t a' s' t' :
  r = (a, s, t) → a = a' → s = s' → t = t' → r = (a', s', t').
Proof. by intros -> -> -> ->. Qed.

Lemma of_bool_eqb b : (of_bool b =? 0) = negb b.
Proof. by destruct b. Qed.

Lemma set_object_twice h o o' st :
  set_object h o (set_object h o' st) = set_object h o st.
Proof. unfold set_object. cbn. by rewrite insert_insert_eq. Qed.

Ltac proj := cbn [objects last_name set_object remove_object].

Ltac recs :=
  unfold with_source, with_status, with_flag, with_attached, with_link,
    new_shader, new_program;
  cbn [shader_param program_param sh_type sh_source sh_status sh_log sh_flagged
       pr_attached pr_status pr_log app].

Ltac norm := lazy beta iota zeta; proj; recs.

Ltac lk :=
  unfold st_linked, st_fragment, st_vertex, st_created,
    vs_name, fs_name, program_name;
  proj;
  repeat (rewrite lookup_insert_ne by lia);
  rewrite ?lookup_insert_eq; reflexivity.

(** Decide the branch the loader takes without touching the carried state. *)
Ltac branch H :=
  match goal with
  | |- _ ?s = _ =>
      let S := fresh "S" in
      set (S := s); norm; rewrite ?of_bool_eqb, H; norm; subst S
  end.

Ltac step lem := norm; eapply runs_step; [ eapply lem | ]; norm.
Ltac lstep lem := norm; eapply runs_step; [ eapply lem; lk | ]; norm.

Ltac state_eq :=
  unfold st_linked, st_fragment, st_vertex, st_created, set_object;
  cbn [objects last_name]; rewrite ?insert_insert_eq; reflexivity.

Ltac expected :=
  unfold expected_trace, ev_create, ev_read, ev_missing, ev_vertex_error,
    ev_fragment_error, ev_shader_error, ev_compile, ev_link, ev_link_error,
    ev_cleanup, ev_wrap, retrieved, linked, vertex_obj, fragment_obj, compiled,
    shader_text, assets_present, vs_code, fs_code, vs_name, fs_name, program_name
    in *;
  cbn [app shader_param program_param sh_type sh_source sh_status sh_log
       sh_flagged pr_attached pr_status pr_log] in *.

Lemma attached_shaders_two m (vs fs : GLuint) v f :
  m !! vs = Some (Shader v) →
  m !! fs = Some (Shader f) →
  attached_shaders m [vs; fs] = [v; f].
Proof. intros Hv Hf. cbn. by rewrite Hv, Hf. Qed.

Lemma attached_anywhere_false h (m : gmap N gl_object) :
  (∀ k o, m !! k = Some o → holds h o = false) →
  attached_anywhere h m = false.
Proof.
  intros H. unfold attached_anywhere. apply bool_decide_eq_false_2.
  intros (k & o & Hk & Ho). rewrite (H k o Hk) in Ho. discriminate.
Qed.

Lemma filter_ne_head (a : GLuint) (l : list GLuint) :
  a ∉ l → filter (λ h, h ≠ a) (a :: l) = l.
Proof.
  intros Ha. rewrite filter_cons_False by (intros H; by apply H).
  induction l as [|b l IH]; [done|].
  apply not_elem_of_cons in Ha as [Hab Hal].
  rewrite filter_cons_True by done. by rewrite IH.
Qed.

Lemma detach_run p h S pr s :
  objects S !! p = Some (Program pr) →
  h ∈ pr_attached pr →
  objects S !! h = Some (Shader s) →
  sh_flagged s = false →
  detach_shader p h S =
    set_object p
      (Program (with_attached pr (filter (λ x, x ≠ h) (pr_attached pr)))) S.
Proof.
  intros Hp Hin Hh Hfl. unfold detach_shader. rewrite Hp.
  rewrite bool_decide_eq_true_2 by done.
  unfold reap. cbn [objects set_object].
  rewrite lookup_insert_ne by (intros ->; congruence).
  by rewrite Hh, Hfl.
Qed.

Lemma delete_run h S s :
  objects S !! h = Some (Shader s) →
  attached_anywhere h (objects S) = false →
  delete_shader h S = remove_object h S.
Proof. intros Hh Ha. unfold delete_shader. by rewrite Hh, Ha. Qed.

Lemma finish_run (b k : bool) (p : GLuint) S :
  (if negb (b, if b || k then {| name := p; deleter := Some glDeleteProgram |}
               else make_unique_GLObject).1
   then GLObject_destroy
          (b, if b || k then {| name := p; deleter := Some glDeleteProgram |}
              else make_unique_GLObject).2 ;;; ret None
   else ret (Some (b, if b || k then {| name := p; deleter := Some glDeleteProgram |}
                      else make_unique_GLObject).2)) S =
  (if b then Some {| name := p; deleter := Some glDeleteProgram |} else None,
   if b || negb k then S else delete_program p S,
   if b || negb k then [] else [EDeleteProgram p]).
Proof. by destruct b, k. Qed.

Section Paths.

Variable env : collaborators.
Variables vp fp : path.
Variable st : gl_state.

Ltac reads Ha :=
  unfold load_shaders;
  step glCreateShader_run; step glCreateShader_run;
  step read_asset_run; step read_asset_run;
  branch Ha.

Ltac compiles H :=
  lstep glShaderSource_run; lstep glCompileShader_run;
  lstep glGetShaderiv_run; lstep glGetShaderiv_run;
  branch H.

Ltac attaches :=
  norm; eapply runs_step;
  [ eapply glAttachShader_run;
    [ lk | lk | recs; cbn [app]; rewrite ?not_elem_of_cons; split_and?;
                first [ apply not_elem_of_nil | lia ] ]
  | ]; norm.

Ltac links H :=
  step glCreateProgram_run; attaches; attaches;
  lstep glLinkProgram_run;
  erewrite !attached_shaders_two by lk;
  lstep glGetProgramiv_run; lstep glGetProgramiv_run;
  branch H.

Lemma run_asset_missing :
  assets_present env vp fp = false →
  load_shaders env vp fp st =
    (None, st_created st, expected_trace env vp fp st AssetMissing).
Proof.
  intros Ha. apply negb_false_iff in Ha. expected.
  eapply run_eq.
  { reads Ha. step LOG_ERROR_run. reflexivity. }
  all: reflexivity.
Qed.

Lemma run_vertex_failed :
  assets_present env vp fp = true →
  sh_status (vertex_obj env vp) = false →
  load_shaders env vp fp st =
    (None, st_vertex env vp st, expected_trace env vp fp st VertexCompileFailed).
Proof.
  intros Ha Hv. apply negb_true_iff in Ha. expected.
  eapply run_eq.
  { reads Ha. compiles Hv.
    lstep glGetShaderInfoLog_run. step LOG_ERROR_run. reflexivity. }
  - reflexivity.
  - rewrite set_object_twice. reflexivity.
  - reflexivity.
Qed.

Lemma run_fragment_failed :
  assets_present env vp fp = true →
  sh_status (vertex_obj env vp) = true →
  sh_status (fragment_obj env fp) = false →
  load_shaders env vp fp st =
    (None, st_fragment env vp fp st,
     expected_trace env vp fp st FragmentCompileFailed).
Proof.
  intros Ha Hv Hf. apply negb_true_iff in Ha. expected.
  eapply run_eq.
  { reads Ha. compiles Hv. compiles Hf.
    lstep glGetShaderInfoLog_run. step LOG_ERROR_run. reflexivity. }
  - reflexivity.
  - rewrite !set_object_twice. reflexivity.
  - reflexivity.
Qed.

Lemma run_link_failed :
  assets_present env vp fp = true →
  sh_status (vertex_obj env vp) = true →
  sh_status (fragment_obj env fp) = true →
  pr_status (linked env vp fp []) = false →
  load_shaders env vp fp st =
    (None, st_linked env vp fp st [vs_name st; fs_name st],
     expected_trace env vp fp st LinkFailed).
Proof.
  intros Ha Hv Hf Hl. apply negb_true_iff in Ha. expected.
  eapply run_eq.
  { reads Ha. compiles Hv. compiles Hf. links Hl.
    lstep glGetProgramInfoLog_run. step LOG_ERROR_run. reflexivity. }
  - reflexivity.
  - state_eq.
  - reflexivity.
Qed.

Lemma cleanup_detach :
  detach_shader (program_name st) (fs_name st)
    (detach_shader (program_name st) (vs_name st)
       (st_linked env vp fp st [vs_name st; fs_name st])) =
  st_linked env vp fp st [].
Proof.
  unfold vs_name, fs_name, program_name.
  erewrite (detach_run _ (N.succ (last_name st))); [ | lk | | lk | reflexivity ].
  2: { cbn. apply elem_of_cons. by left. }
  cbn [pr_attached linked].
  rewrite filter_ne_head by (rewrite list_elem_of_singleton; lia).
  erewrite detach_run; [ | lk | | lk | reflexivity ].
  2: { cbn. apply elem_of_cons. by left. }
  cbn [pr_attached with_attached].
  rewrite filter_ne_head by apply not_elem_of_nil.
  rewrite set_object_twice. state_eq.
Qed.

Lemma run_linked :
  assets_present env vp fp = true →
  sh_status (vertex_obj env vp) = true →
  sh_status (fragment_obj env fp) = true →
  pr_status (linked env vp fp []) = true →
  load_shaders env vp fp st =
    (if object_init env (program_name st)
     then Some {| name := program_name st; deleter := Some glDeleteProgram |}
     else None,
     if object_init env (program_name st) || negb (init_binds_on_refusal env)
     then st_cleaned env vp fp st
     else delete_program (program_name st) (st_cleaned env vp fp st),
     expected_trace env vp fp st Loaded).
Proof.
  intros Ha Hv Hf Hl. apply negb_true_iff in Ha.
  unfold st_cleaned. rewrite <- cleanup_detach. expected.
  eapply run_eq.
  { reads Ha. compiles Hv. compiles Hf. links Hl.
    step glDetachShader_run. step glDetachShader_run.
    step glDeleteShader_run. step glDeleteShader_run.
    step GLObject_init_run. apply finish_run. }
  - reflexivity.
  - match goal with
    | |- (if _ then ?R else _) = _ =>
        assert (HS : R =
          delete_shader (N.succ (N.succ (last_name st)))
            (delete_shader (N.succ (last_name st))
               (detach_shader (N.succ (N.succ (N.succ (last_name st))))
                  (N.succ (N.succ (last_name st)))
                  (detach_shader (N.succ (N.succ (N.succ (last_name st))))
                     (N.succ (last_name st))
                     (st_linked env vp fp st
                        [N.succ (last_name st); N.succ (N.succ (last_name st))])))))
          by (do 4 f_equal; state_eq);
        rewrite HS
    end.
    reflexivity.
  - reflexivity.
Qed.

End Paths.

(** ** Every call, by outcome *)

Lemma load_shaders_run env vp fp st :
  load_shaders env vp fp st =
    (expected_result st (outcome_of env vp fp st),
     expected_state env vp fp st (outcome_of env vp fp st),
     expected_trace env vp fp st (outcome_of env vp fp st)).
Proof.
  unfold outcome_of.
  destruct (assets_present env vp fp) eqn:Ha; cbn [negb];
    [ | by apply run_asset_missing ].
  destruct (sh_status (vertex_obj env vp)) eqn:Hv; cbn [negb];
    [ | by apply run_vertex_failed ].
  destruct (sh_status (fragment_obj env fp)) eqn:Hf; cbn [negb];
    [ | by apply run_fragment_failed ].
  destruct (pr_status (linked env vp fp [])) eqn:Hl; cbn [negb];
    [ | by apply run_link_failed ].
  rewrite run_linked by done.
  destruct (object_init env (program_name st)); [done|].
  cbn [negb expected_state expected_result orb].
  destruct (init_binds_on_refusal env); reflexivity.
Qed.

Lemma outcome_asset_missing env vp fp st :
  assets_present env vp fp = false → outcome_of env vp fp st = AssetMissing.
Proof. intros H. unfold outcome_of. by rewrite H. Qed.

Lemma outcome_linked env vp fp st :
  assets_present env vp fp = true →
  sh_status (vertex_obj env vp) = true →
  sh_status (fragment_obj env fp) = true →
  pr_status (linked env vp fp []) = true →
  outcome_of env vp fp st =
    if object_init env (program_name st) then Loaded else InitRefused.
Proof.
  intros Ha Hv Hf Hl. unfold outcome_of. rewrite Ha, Hv, Hf, Hl.
  by destruct (object_init env (program_name st)).
Qed.


(** ** C strings and info-log buffers *)

Lemma take_str_all s : take_str (String.length s) s = s.
Proof. induction s as [|c s IH]; [done|]. cbn. by rewrite IH. Qed.

Lemma c_str_overwrite s m :
  (String.length s < m)%nat →
  c_str (overwrite (s +:+ String NUL "") (vector_char m)) = c_str s.
Proof.
  revert m. induction s as [|c s IH]; intros m Hm.
  - destruct m; [lia|]. reflexivity.
  - destruct m; [cbn in Hm; lia|].
    change (c_str (String c (overwrite (s +:+ String NUL "") (vector_char m)))
            = c_str (String c s)).
    cbn [c_str]. destruct (Ascii.eqb c NUL); [done|].
    rewrite IH; [done | cbn in Hm; lia].
Qed.

Lemma wrap_int_small z : - 2 ^ 31 ≤ z < 2 ^ 31 → wrap_int z = z.
Proof. intros Hz. unfold wrap_int. rewrite Z.mod_small; lia. Qed.

Lemma c_str_retrieved log : log_fits log → c_str (retrieved log) = c_str log.
Proof.
  unfold log_fits, retrieved. intros Hfit.
  destruct log as [|c l]; [reflexivity|].
  set (s := String c l) in *.
  assert (Hlen : info_log_length_of s = Z.of_nat (String.length s) + 1) by done.
  rewrite Hlen. unfold write_log, int_add.
  destruct (Z.leb_spec (Z.of_nat (String.length s) + 1) 0) as [Hle|_]; [lia|].
  rewrite wrap_int_small by lia.
  replace (Z.to_nat (Z.of_nat (String.length s) + 1 - 1)) with (String.length s) by lia.
  rewrite take_str_all. apply c_str_overwrite. lia.
Qed.

Lemma c_str_gl_version env : c_str (gl_version env) = gl_version env.
Proof. unfold gl_version. by destruct (android env). Qed.

(** ** Well-formed states *)

Lemma wf_lookup st k o :
  wf st = true → objects st !! k = Some o → known st k o.
Proof.
  unfold wf. intros Hwf Hk. apply bool_decide_eq_true_1 in Hwf.
  by apply (map_Forall_lookup_1 _ _ _ _ Hwf).
Qed.

Lemma wf_fresh st k :
  wf st = true → (last_name st < k)%N → objects st !! k = None.
Proof.
  intros Hwf Hk. destruct (objects st !! k) as [o|] eqn:Ho; [|done].
  destruct (wf_lookup _ _ _ Hwf Ho) as [Hle _]. lia.
Qed.

Lemma wf_not_held st k o h :
  wf st = true → (last_name st < h)%N → objects st !! k = Some o → holds h o = false.
Proof.
  intros Hwf Hh Ho. destruct (wf_lookup _ _ _ Hwf Ho) as [_ Hall].
  destruct o as [s|p]; [done|]. cbn in *.
  apply bool_decide_eq_false_2. intros Hin.
  rewrite Forall_forall in Hall. specialize (Hall _ Hin). cbn in Hall. lia.
Qed.

Lemma wf_st0 : wf st0 = true.
Proof. reflexivity. Qed.

(** Deleting a shader never touches a program object. *)
Lemma delete_shader_program h S k pr :
  objects S !! k = Some (Program pr) →
  objects (delete_shader h S) !! k = Some (Program pr).
Proof.
  intros Hk. unfold delete_shader.
  destruct (objects S !! h) as [[s|p]|] eqn:Hh; try done.
  assert (h ≠ k)
    by (intros Heq; subst; pose proof (eq_trans (eq_sym Hh) Hk); discriminate).
  destruct (attached_anywhere h (objects S)); cbn.
  - by rewrite lookup_insert_ne.
  - by rewrite lookup_delete_ne.
Qed.

Section Cleaned.

Variable env : collaborators.
Variables vp fp : path.
Variable st : gl_state.

Lemma st_cleaned_program :
  objects (st_cleaned env vp fp st) !! program_name st =
    Some (Program (linked env vp fp [])).
Proof.
  unfold st_cleaned. do 2 apply delete_shader_program. lk.
Qed.

Hypothesis Hwf : wf st = true.

Lemma st_linked_not_held h k o :
  (last_name st < h)%N →
  objects (st_linked env vp fp st []) !! k = Some o → holds h o = false.
Proof.
  intros Hh. unfold st_linked, st_fragment, st_vertex, st_created.
  cbn [objects set_object].
  rewrite !lookup_insert. repeat case_decide; intros Ho; simplify_eq; try done.
  by eapply wf_not_held.
Qed.

Lemma st_cleaned_objects :
  objects (st_cleaned env vp fp st) =
    <[program_name st := Program (linked env vp fp [])]> (objects st).
Proof.
  unfold st_cleaned.
  erewrite (delete_run (vs_name st)); [ | lk | ].
  2: { apply attached_anywhere_false. intros k o.
       apply st_linked_not_held. unfold vs_name. lia. }
  erewrite (delete_run (fs_name st)); [ | unfold remove_object; cbn [objects] | ].
  2: { rewrite lookup_delete_ne by (unfold vs_name, fs_name; lia). lk. }
  2: { apply attached_anywhere_false. intros k o. cbn [objects remove_object].
       rewrite lookup_delete. case_decide; [done|].
       apply st_linked_not_held. unfold fs_name. lia. }
  unfold remove_object, st_linked, st_fragment, st_vertex, st_created, set_object.
  cbn [objects].
  pose proof (wf_fresh st (vs_name st) Hwf) as Hv.
  pose proof (wf_fresh st (fs_name st) Hwf) as Hf.
  unfold vs_name, fs_name, program_name in *.
  apply map_eq. intros k.
  rewrite !lookup_delete, !lookup_insert.
  repeat case_decide; simplify_eq; try done; try lia.
  - symmetry. apply Hf. lia.
  - symmetry. apply Hv. lia.
Qed.

Lemma st_cleaned_no_shader :
  objects (st_cleaned env vp fp st) !! vs_name st = None ∧
  objects (st_cleaned env vp fp st) !! fs_name st = None.
Proof.
  rewrite st_cleaned_objects.
  unfold vs_name, fs_name, program_name.
  rewrite !lookup_insert_ne by lia.
  split; apply wf_fresh; try done; lia.
Qed.

End Cleaned.

Lemma delete_shader_last_name h S : last_name (delete_shader h S) = last_name S.
Proof.
  unfold delete_shader.
  destruct (objects S !! h) as [[s|p]|]; try done.
  by destruct (attached_anywhere h (objects S)).
Qed.

(** The wrapper of a refused [init] going out of scope, when it did store
    the program's name: the program leaves the table. *)

Lemma delete_program_cleaned env vp fp st :
  delete_program (program_name st) (st_cleaned env vp fp st) =
    remove_object (program_name st) (st_cleaned env vp fp st).
Proof.
  unfold delete_program.
  rewrite (proj2 (N.eqb_neq _ 0%N)) by (unfold program_name; lia).
  by rewrite st_cleaned_program.
Qed.

Lemma delete_program_cleaned_objects env vp fp st :
  wf st = true →
  objects (delete_program (program_name st) (st_cleaned env vp fp st)) = objects st.
Proof.
  intros Hwf. rewrite delete_program_cleaned. cbn [objects remove_object].
  rewrite st_cleaned_objects by done.
  rewrite delete_insert_eq. apply delete_id, wf_fresh; [done|].
  unfold program_name. lia.
Qed.

Lemma delete_program_cleaned_last_name env vp fp st :
  last_name (delete_program (program_name st) (st_cleaned env vp fp st)) =
    program_name st.
Proof.
  rewrite delete_program_cleaned. cbn [last_name remove_object].
  unfold st_cleaned. by rewrite !delete_shader_last_name.
Qed.

(** Well-formedness is an invariant of the loader, whatever the outcome. *)

Lemma known_mono st st' k o :
  known st k o → (last_name st ≤ last_name st')%N → known st' k o.
Proof.
  intros [Hk Hall] Hle. split; [lia|].
  eapply Forall_impl; [exact Hall|]. cbn. intros h Hh. lia.
Qed.

Lemma wf_intro st : map_Forall (known st) (objects st) → wf st = true.
Proof. intros H. by apply bool_decide_eq_true_2. Qed.

Lemma expected_state_wf env vp fp st o :
  wf st = true → wf (expected_state env vp fp st o) = true.
Proof.
  intros Hwf.
  assert (Hold : ∀ n, (last_name st ≤ n)%N →
            map_Forall (λ k o, (k ≤ n)%N ∧ Forall (λ h, (h ≤ n)%N) (attached_of o))
              (objects st)).
  { intros n Hn k o' Hk.
    apply (known_mono st {| objects := ∅; last_name := n |}); [|done].
    by eapply wf_lookup. }
  apply wf_intro.
  destruct o; cbn [expected_state];
    try destruct (init_binds_on_refusal env);
    try (rewrite delete_program_cleaned_objects by done; unfold known;
         rewrite delete_program_cleaned_last_name; unfold program_name;
         apply Hold; lia);
    try (rewrite st_cleaned_objects by done; unfold st_cleaned;
         unfold known; rewrite !delete_shader_last_name);
    unfold known, st_linked, st_fragment, st_vertex, st_created, vs_name, fs_name,
      program_name;
    cbn [objects last_name set_object];
    repeat (apply map_Forall_insert_2;
            [ split; [lia | cbn; repeat (constructor; [lia|]); constructor ] | ]);
    apply Hold; lia.
Qed.

(** X8.  Whatever the outcome, a call takes a well-formed table to a
    well-formed table: every name in use and every attached name on return
    was handed out by the driver. *)
Lemma load_shaders_preserves_wf env vp fp st :
  wf st = true → wf (load_shaders env vp fp st).1.2 = true.
Proof. intros Hwf. rewrite load_shaders_run. by apply expected_state_wf. Qed.

(** ** Reading the expected traces *)

Section Traces.

Variable env : collaborators.
Variables vp fp : path.
Variable st : gl_state.

Lemma assets_missing_iff :
  empty (vs_code env vp) = true ∨ empty (fs_code env fp) = true ↔
  assets_present env vp fp = false.
Proof.
  unfold assets_present. rewrite negb_false_iff, orb_true_iff. done.
Qed.

Lemma logged_expected o :
  logs_fit env →
  logged (expected_trace env vp fp st o) = failure_message env vp fp o.
Proof.
  intros [Hc Hl]. destruct o; cbn; try reflexivity;
    try (destruct (object_init env _), (init_binds_on_refusal env); reflexivity).
  - by rewrite c_str_retrieved by apply Hc.
  - by rewrite c_str_retrieved by apply Hc.
  - by rewrite c_str_retrieved by apply Hl.
Qed.

Lemma diagnostics_expected o :
  logs_fit env →
  diagnostics (expected_trace env vp fp st o) = failure_diagnostic env vp fp o.
Proof.
  intros [Hc Hl]. destruct o; cbn; try reflexivity;
    try (destruct (object_init env _), (init_binds_on_refusal env); reflexivity).
  - by rewrite c_str_retrieved by apply Hc.
  - by rewrite c_str_retrieved by apply Hc.
  - by rewrite c_str_retrieved by apply Hl.
Qed.


Lemma logged_wrapped :
  logged (expected_trace env vp fp st Loaded) = [].
Proof.
  unfold expected_trace, ev_wrap.
  by destruct (object_init env _), (init_binds_on_refusal env).
Qed.

Lemma pipeline_trace :
  ev_create st ++ run_pipeline env vp fp st pipeline =
    expected_trace env vp fp st (outcome_of env vp fp st).
Proof.
  unfold outcome_of, pipeline.
  cbn [run_pipeline stage_events stage_passes].
  unfold expected_trace, ev_wrap.
  destruct (assets_present env vp fp); [|reflexivity].
  destruct (sh_status (vertex_obj env vp)); [|reflexivity].
  destruct (sh_status (fragment_obj env fp)); [|reflexivity].
  destruct (pr_status (linked env vp fp [])); [|reflexivity].
  destruct (object_init env (program_name st)),
    (init_binds_on_refusal env); reflexivity.
Qed.

Lemma pipeline_passes :
  forallb (stage_passes env vp fp st) pipeline =
    is_loaded (expected_result st (outcome_of env vp fp st)).
Proof.
  unfold outcome_of, pipeline.
  cbn [forallb stage_passes].
  destruct (assets_present env vp fp); [|reflexivity].
  destruct (sh_status (vertex_obj env vp)); [|reflexivity].
  destruct (sh_status (fragment_obj env fp)); [|reflexivity].
  destruct (pr_status (linked env vp fp [])); [|reflexivity].
  destruct (object_init env (program_name st)); reflexivity.
Qed.

End Traces.

(** * The loader over a driver that may fail: proofs *)

Lemma nstep {A B} (m : Native.MX A) (k : A → Native.MX B) st a st1 e c st2 t2 :
  m st = (Native.Returned a, st1, [e]) →
  k a st1 = (c, st2, t2) →
  Native.bind m k st = (c, st2, e :: t2).
Proof. intros Hm Hk. unfold Native.bind. by rewrite Hm, Hk. Qed.

Lemma npure {A B} (m : Native.MX A) (k : A → Native.MX B) st a r :
  m st = (Native.Returned a, st, []) →
  k a st = r →
  Native.bind m k st = r.
Proof.
  intros Hm Hk. unfold Native.bind. rewrite Hm, Hk. by destruct r as [[c s] t].
Qed.

Lemma nlift {A} (m : M A) st a st1 t :
  m st = (a, st1, t) → Native.lift m st = (Native.Returned a, st1, t).
Proof. intros Hm. unfold Native.lift. by rewrite Hm. Qed.

Lemma on_names_one (h : GLuint) f st : h ≠ 0%N → Native.on_names [h] f st = f st.
Proof.
  intros Hh. by destruct h.
Qed.

Lemma on_names_two (p h : GLuint) f st :
  p ≠ 0%N → h ≠ 0%N → Native.on_names [p; h] f st = f st.
Proof.
  intros Hp Hh. by destruct p, h.
Qed.

Lemma named_lookup (h : GLuint) st : h ≠ 0%N → Native.named h st = objects st !! h.
Proof. intros Hh. by destruct h. Qed.

Section NativeSteps.

Variable d : Native.driver.
Variable env : collaborators.

Lemma nCreateShader_run t st :
  Native.create_ok d (N.succ (last_name st)) = true →
  Native.glCreateShader d t st =
    (Native.Returned (N.succ (last_name st)),
     {| objects := <[N.succ (last_name st) := Shader (new_shader t)]> (objects st);
        last_name := N.succ (last_name st) |},
     [ECreateShader t (N.succ (last_name st))]).
Proof. intros H. unfold Native.glCreateShader. by rewrite H. Qed.

Lemma nCreateProgram_run st :
  Native.create_ok d (N.succ (last_name st)) = true →
  Native.glCreateProgram d st =
    (Native.Returned (N.succ (last_name st)),
     {| objects := <[N.succ (last_name st) := Program new_program]> (objects st);
        last_name := N.succ (last_name st) |},
     [ECreateProgram (N.succ (last_name st))]).
Proof. intros H. unfold Native.glCreateProgram. by rewrite H. Qed.

Lemma nShaderSource_run (h : GLuint) strs st s :
  h ≠ 0%N →
  objects st !! h = Some (Shader s) →
  Native.glShaderSource h strs st =
    (Native.Returned tt,
     set_object h (Shader (with_source s (String.concat "" (c_str <$> strs)))) st,
     [EShaderSource h strs]).
Proof.
  intros Hh H. unfold Native.glShaderSource. rewrite on_names_one by done.
  unfold shader_source. by rewrite H.
Qed.

Lemma nCompileShader_run (h : GLuint) st s :
  h ≠ 0%N →
  objects st !! h = Some (Shader s) →
  Native.glCompileShader env h st =
    (Native.Returned tt,
     set_object h (Shader (with_status s (compile env (sh_type s) (sh_source s)))) st,
     [ECompileShader h]).
Proof.
  intros Hh H. unfold Native.glCompileShader. rewrite on_names_one by done.
  unfold compile_shader. by rewrite H.
Qed.

Lemma nGetShaderiv_run (h : GLuint) p st s :
  h ≠ 0%N →
  objects st !! h = Some (Shader s) →
  Native.glGetShaderiv d h p st =
    (Native.Returned (Some (Native.shader_answer d s p)), st,
     [EGetShaderiv h p (Native.shader_answer d s p)]).
Proof.
  intros Hh H. unfold Native.glGetShaderiv. rewrite named_lookup by done.
  by rewrite H.
Qed.

Lemma nGetProgramiv_run (h : GLuint) p st pr :
  h ≠ 0%N →
  objects st !! h = Some (Program pr) →
  Native.glGetProgramiv d h p st =
    (Native.Returned (Some (Native.program_answer d pr p)), st,
     [EGetProgramiv h p (Native.program_answer d pr p)]).
Proof.
  intros Hh H. unfold Native.glGetProgramiv. rewrite named_lookup by done.
  by rewrite H.
Qed.

Lemma nAttachShader_run (p h : GLuint) st pr s :
  p ≠ 0%N → h ≠ 0%N →
  objects st !! p = Some (Program pr) →
  objects st !! h = Some (Shader s) →
  h ∉ pr_attached pr →
  Native.glAttachShader p h st =
    (Native.Returned tt,
     set_object p (Program (with_attached pr (pr_attached pr ++ [h]))) st,
     [EAttachShader p h]).
Proof.
  intros Hp0 Hh0 Hp Hh Hn. unfold Native.glAttachShader.
  rewrite on_names_two by done. unfold attach_shader. rewrite Hp, Hh.
  by rewrite bool_decide_eq_false_2.
Qed.

Lemma nLinkProgram_run (p : GLuint) st pr :
  p ≠ 0%N →
  objects st !! p = Some (Program pr) →
  Native.glLinkProgram env p st =
    (Native.Returned tt,
     set_object p
       (Program (with_link pr (link env (attached_shaders (objects st) (pr_attached pr)))))
       st,
     [ELinkProgram p]).
Proof.
  intros Hp0 H. unfold Native.glLinkProgram. rewrite on_names_one by done.
  unfold link_program. by rewrite H.
Qed.

Lemma nDetachShader_run (p h : GLuint) st :
  p ≠ 0%N → h ≠ 0%N →
  Native.glDetachShader p h st =
    (Native.Returned tt, detach_shader p h st, [EDetachShader p h]).
Proof.
  intros Hp Hh. unfold Native.glDetachShader. by rewrite on_names_two.
Qed.

Lemma nDeleteShader_run (h : GLuint) st :
  h ≠ 0%N →
  Native.glDeleteShader h st =
    (Native.Returned tt, delete_shader h st, [EDeleteShader h]).
Proof. intros Hh. unfold Native.glDeleteShader. by rewrite on_names_one. Qed.

(** A creation that fails, and the calls made on the 0 it returned. *)

Lemma nCreateShader_fail t st :
  Native.create_ok d (N.succ (last_name st)) = false →
  Native.glCreateShader d t st =
    (Native.Returned 0%N,
     {| objects := objects st; last_name := N.succ (last_name st) |},
     [ECreateShader t 0%N]).
Proof. intros H. unfold Native.glCreateShader. by rewrite H. Qed.

Lemma nCreateProgram_fail st :
  Native.create_ok d (N.succ (last_name st)) = false →
  Native.glCreateProgram d st =
    (Native.Returned 0%N,
     {| objects := objects st; last_name := N.succ (last_name st) |},
     [ECreateProgram 0%N]).
Proof. intros H. unfold Native.glCreateProgram. by rewrite H. Qed.

Lemma nShaderSource_zero strs st :
  Native.glShaderSource 0%N strs st =
    (Native.Returned tt, st, [EShaderSource 0%N strs]).
Proof. reflexivity. Qed.

Lemma nCompileShader_zero st :
  Native.glCompileShader env 0%N st = (Native.Returned tt, st, [ECompileShader 0%N]).
Proof. reflexivity. Qed.

Lemma nGetShaderiv_zero p st :
  Native.glGetShaderiv d 0%N p st =
    (Native.Returned None, st, [EGetShaderivError 0%N p]).
Proof. reflexivity. Qed.

Lemma nGetProgramiv_zero p st :
  Native.glGetProgramiv d 0%N p st =
    (Native.Returned None, st, [EGetProgramivError 0%N p]).
Proof. reflexivity. Qed.

Lemma nAttachShader_zero (p h : GLuint) st :
  p = 0%N ∨ h = 0%N →
  Native.glAttachShader p h st = (Native.Returned tt, st, [EAttachShader p h]).
Proof. intros [-> | ->]; [reflexivity | by destruct p]. Qed.

Lemma nLinkProgram_zero st :
  Native.glLinkProgram env 0%N st = (Native.Returned tt, st, [ELinkProgram 0%N]).
Proof. reflexivity. Qed.

Lemma nDetachShader_zero (p h : GLuint) st :
  p = 0%N ∨ h = 0%N →
  Native.glDetachShader p h st = (Native.Returned tt, st, [EDetachShader p h]).
Proof. intros [-> | ->]; [reflexivity | by destruct p]. Qed.

Lemma nDeleteShader_zero st :
  Native.glDeleteShader 0%N st = (Native.Returned tt, st, [EDeleteShader 0%N]).
Proof. reflexivity. Qed.

Lemma rvalue_run v st : Native.rvalue (Some v) st = (Native.Returned v, st, []).
Proof. reflexivity. Qed.

(** How the report of a failed shader ends: the allocation throws, the
    buffer is empty, or the log is fetched and logged. *)
Lemma shader_report_run (h : GLuint) label s st :
  h ≠ 0%N →
  objects st !! h = Some (Shader s) →
  Native.bind (Native.rvalue (Some (Native.log_length d (sh_log s)))) (λ n,
    Native.bind (Native.std_vector_char (int_add n 1)) (λ v,
      Native.bind (Native.data0 v) (λ buf,
        Native.bind (Native.glGetShaderInfoLog h n buf) (λ buf,
          Native.bind
            (Native.lift (LOG_ERROR (label +:+ c_str buf +:+ nl)))
            (λ _, Native.ret None))))) st =
  (Native.report d (sh_log s), st, Native.ev_shader_error d h label (sh_log s)).
Proof.
  intros Hh Hs.
  unfold Native.ev_shader_error, Native.report, Native.fetched, Native.buffer_size.
  eapply npure; [apply rvalue_run|].
  unfold Native.bind at 1, Native.std_vector_char.
  destruct (Z.ltb_spec (int_add (Native.log_length d (sh_log s)) 1) 0) as [Hneg|Hpos];
    [reflexivity|].
  cbn [Native.ret].
  unfold Native.bind at 1, Native.data0.
  destruct (Z.eqb_spec (int_add (Native.log_length d (sh_log s)) 1) 0) as [Hz|Hnz].
  - rewrite Hz. reflexivity.
  - assert (Hne : empty (vector_char (Z.to_nat (int_add (Native.log_length d (sh_log s)) 1)))
                  = false).
    { destruct (Z.to_nat _) eqn:Hn; [lia | reflexivity]. }
    rewrite Hne. cbn [Native.ret].
    unfold Native.bind, Native.glGetShaderInfoLog, Native.shader_info_log,
      Native.lift, LOG_ERROR, Native.ret.
    rewrite named_lookup by done. rewrite Hs. reflexivity.
Qed.

Lemma program_report_run (h : GLuint) label pr st :
  h ≠ 0%N →
  objects st !! h = Some (Program pr) →
  Native.bind (Native.rvalue (Some (Native.log_length d (pr_log pr)))) (λ n,
    Native.bind (Native.std_vector_char (int_add n 1)) (λ v,
      Native.bind (Native.data0 v) (λ buf,
        Native.bind (Native.glGetProgramInfoLog h n buf) (λ buf,
          Native.bind
            (Native.lift (LOG_ERROR (label +:+ c_str buf +:+ nl)))
            (λ _, Native.ret None))))) st =
  (Native.report d (pr_log pr), st,
   match Native.report d (pr_log pr) with
   | Native.Returned _ =>
       [EGetProgramInfoLog h (Native.log_length d (pr_log pr))
          (Native.fetched d (pr_log pr));
        ELogError (label +:+ c_str (Native.fetched d (pr_log pr)) +:+ nl)]
   | _ => []
   end).
Proof.
  intros Hh Hs.
  unfold Native.report, Native.fetched, Native.buffer_size.
  eapply npure; [apply rvalue_run|].
  unfold Native.bind at 1, Native.std_vector_char.
  destruct (Z.ltb_spec (int_add (Native.log_length d (pr_log pr)) 1) 0) as [Hneg|Hpos];
    [reflexivity|].
  cbn [Native.ret].
  unfold Native.bind at 1, Native.data0.
  destruct (Z.eqb_spec (int_add (Native.log_length d (pr_log pr)) 1) 0) as [Hz|Hnz].
  - rewrite Hz. reflexivity.
  - assert (Hne : empty (vector_char (Z.to_nat (int_add (Native.log_length d (pr_log pr)) 1)))
                  = false).
    { destruct (Z.to_nat _) eqn:Hn; [lia | reflexivity]. }
    rewrite Hne. cbn [Native.ret].
    unfold Native.bind, Native.glGetProgramInfoLog, Native.program_info_log,
      Native.lift, LOG_ERROR, Native.ret.
    rewrite named_lookup by done. rewrite Hs. reflexivity.
Qed.

End NativeSteps.

Lemma nrun_eq {A} (r : Native.completion A * gl_state * list event)
  c s t c' s' t' :
  r = (c, s, t) → c = c' → s = s' → t = t' → r = (c', s', t').
Proof. by intros -> -> -> ->. Qed.

Lemma nfinish_run (b k : bool) (p : GLuint) S :
  (if negb (b, if b || k then {| name := p; deleter := Some glDeleteProgram |}
               else make_unique_GLObject).1
   then Native.bind
          (Native.lift
             (GLObject_destroy
                (b, if b || k then {| name := p; deleter := Some glDeleteProgram |}
                    else make_unique_GLObject).2))
          (λ _, Native.ret None)
   else Native.ret
          (Some (b, if b || k then {| name := p; deleter := Some glDeleteProgram |}
                    else make_unique_GLObject).2)) S =
  (Native.Returned
     (if b then Some {| name := p; deleter := Some glDeleteProgram |} else None),
   if b || negb k then S else delete_program p S,
   if b || negb k then [] else [EDeleteProgram p]).
Proof. by destruct b, k. Qed.

Ltac nnorm :=
  lazy beta iota zeta; proj; recs;
  cbn [Native.assign Native.shader_answer Native.program_answer
       shader_param program_param].

Ltac side := first [ lia | lk ].

(** One native call whose premises are name and lookup facts. *)
Ltac nrun lem := nnorm; eapply nstep; [ eapply lem; side | ]; nnorm.

(** One call of a collaborator, lifted. *)
Ltac nlifted lem := nnorm; eapply nstep; [ apply nlift; eapply lem | ]; nnorm.

Ltac nread := nnorm; eapply npure; [ apply rvalue_run | ]; nnorm.

Section NativePaths.

Variable d : Native.driver.
Variable env : collaborators.
Variables vp fp : path.
Variable st : gl_state.

Hypothesis Hcv : Native.create_ok d (N.succ (last_name st)) = true.
Hypothesis Hcf : Native.create_ok d (N.succ (N.succ (last_name st))) = true.
Hypothesis Hcp : Native.create_ok d (N.succ (N.succ (N.succ (last_name st)))) = true.

Ltac nreads Ha :=
  unfold Native.load_shaders;
  nnorm; eapply nstep; [ eapply nCreateShader_run; exact Hcv | ]; nnorm;
  nnorm; eapply nstep; [ eapply nCreateShader_run; exact Hcf | ]; nnorm;
  nlifted read_asset_run; nlifted read_asset_run;
  branch Ha.

Ltac ncompiles H :=
  nrun nShaderSource_run; nrun nCompileShader_run;
  nrun nGetShaderiv_run; nrun nGetShaderiv_run;
  nread; branch H.

Ltac nattaches :=
  nnorm; eapply nstep;
  [ eapply nAttachShader_run;
    [ lia | lia | lk | lk
    | recs; cbn [app]; rewrite ?not_elem_of_cons; split_and?;
      first [ apply not_elem_of_nil | lia ] ]
  | ]; nnorm.

Ltac nlinks H :=
  nnorm; eapply nstep; [ eapply nCreateProgram_run; exact Hcp | ]; nnorm;
  nattaches; nattaches;
  nrun nLinkProgram_run;
  erewrite !attached_shaders_two by lk;
  nrun nGetProgramiv_run; nrun nGetProgramiv_run;
  nread; branch H.

Ltac statuses Hv Hf Hl :=
  unfold linked, vertex_obj, fragment_obj, compiled, shader_text, vs_code, fs_code
    in Hv, Hf, Hl;
  cbn [sh_status pr_status] in Hv, Hf, Hl.

Lemma nrun_asset_missing :
  assets_present env vp fp = false →
  Native.load_shaders d env vp fp st =
    (Native.Returned None, st_created st,
     Native.expected_trace d env vp fp st AssetMissing).
Proof.
  intros Ha. apply negb_false_iff in Ha. unfold vs_code, fs_code in Ha.
  eapply nrun_eq.
  { nreads Ha. nlifted LOG_ERROR_run. reflexivity. }
  all: reflexivity.
Qed.

Lemma nrun_vertex_failed :
  assets_present env vp fp = true →
  sh_status (vertex_obj env vp) = false →
  Native.load_shaders d env vp fp st =
    (Native.report d (sh_log (vertex_obj env vp)), st_vertex env vp st,
     Native.expected_trace d env vp fp st VertexCompileFailed).
Proof.
  intros Ha Hv. apply negb_true_iff in Ha. unfold vs_code, fs_code in Ha.
  pose proof Hv as Hf. pose proof Hv as Hl. statuses Hv Hf Hl.
  eapply nrun_eq.
  { nreads Ha. ncompiles Hv.
    eapply (shader_report_run d (N.succ (last_name st)) _ (vertex_obj env vp));
      side. }
  - reflexivity.
  - rewrite set_object_twice. reflexivity.
  - reflexivity.
Qed.

Lemma nrun_fragment_failed :
  assets_present env vp fp = true →
  sh_status (vertex_obj env vp) = true →
  sh_status (fragment_obj env fp) = false →
  Native.load_shaders d env vp fp st =
    (Native.report d (sh_log (fragment_obj env fp)), st_fragment env vp fp st,
     Native.expected_trace d env vp fp st FragmentCompileFailed).
Proof.
  intros Ha Hv Hf. apply negb_true_iff in Ha. unfold vs_code, fs_code in Ha.
  pose proof Hv as Hl. statuses Hv Hf Hl.
  eapply nrun_eq.
  { nreads Ha. ncompiles Hv. ncompiles Hf.
    eapply (shader_report_run d (N.succ (N.succ (last_name st))) _
              (fragment_obj env fp)); side. }
  - reflexivity.
  - rewrite !set_object_twice. reflexivity.
  - reflexivity.
Qed.

Lemma nrun_link_failed :
  assets_present env vp fp = true →
  sh_status (vertex_obj env vp) = true →
  sh_status (fragment_obj env fp) = true →
  pr_status (linked env vp fp []) = false →
  Native.load_shaders d env vp fp st =
    (Native.report d (pr_log (linked env vp fp [])),
     st_linked env vp fp st [vs_name st; fs_name st],
     Native.expected_trace d env vp fp st LinkFailed).
Proof.
  intros Ha Hv Hf Hl. apply negb_true_iff in Ha. unfold vs_code, fs_code in Ha.
  statuses Hv Hf Hl.
  eapply nrun_eq.
  { nreads Ha. ncompiles Hv. ncompiles Hf. nlinks Hl.
    eapply (program_report_run d (N.succ (N.succ (N.succ (last_name st)))) _
              (linked env vp fp [vs_name st; fs_name st])); side. }
  - reflexivity.
  - state_eq.
  - reflexivity.
Qed.

Lemma nrun_linked :
  assets_present env vp fp = true →
  sh_status (vertex_obj env vp) = true →
  sh_status (fragment_obj env fp) = true →
  pr_status (linked env vp fp []) = true →
  Native.load_shaders d env vp fp st =
    (Native.Returned
       (if object_init env (program_name st)
        then Some {| name := program_name st; deleter := Some glDeleteProgram |}
        else None),
     if object_init env (program_name st) || negb (init_binds_on_refusal env)
     then st_cleaned env vp fp st
     else delete_program (program_name st) (st_cleaned env vp fp st),
     Native.expected_trace d env vp fp st Loaded).
Proof.
  intros Ha Hv Hf Hl. apply negb_true_iff in Ha. unfold vs_code, fs_code in Ha.
  statuses Hv Hf Hl.
  unfold st_cleaned. rewrite <- cleanup_detach.
  unfold vs_name, fs_name, program_name.
  eapply nrun_eq.
  { nreads Ha. ncompiles Hv. ncompiles Hf. nlinks Hl.
    nrun nDetachShader_run. nrun nDetachShader_run.
    nrun nDeleteShader_run. nrun nDeleteShader_run.
    nlifted GLObject_init_run. apply nfinish_run. }
  - reflexivity.
  - match goal with
    | |- (if _ then ?R else _) = _ =>
        assert (HS : R =
          delete_shader (N.succ (N.succ (last_name st)))
            (delete_shader (N.succ (last_name st))
               (detach_shader (N.succ (N.succ (N.succ (last_name st))))
                  (N.succ (N.succ (last_name st)))
                  (detach_shader (N.succ (N.succ (N.succ (last_name st))))
                     (N.succ (last_name st))
                     (st_linked env vp fp st
                        [N.succ (last_name st); N.succ (N.succ (last_name st))])))))
          by (do 4 f_equal; state_eq);
        rewrite HS
    end.
    reflexivity.
  - reflexivity.
Qed.

End NativePaths.

(** Every call on a driver that creates what it is asked for. *)
Lemma native_run d env vp fp st :
  Native.reliable d st = true →
  Native.load_shaders d env vp fp st =
    (Native.expected_result d env vp fp st (outcome_of env vp fp st),
     expected_state env vp fp st (outcome_of env vp fp st),
     Native.expected_trace d env vp fp st (outcome_of env vp fp st)).
Proof.
  unfold Native.reliable, vs_name, fs_name, program_name.
  intros [[Hcv Hcf]%andb_true_iff Hcp]%andb_true_iff.
  unfold outcome_of.
  destruct (assets_present env vp fp) eqn:Ha; cbn [negb];
    [ | by apply nrun_asset_missing ].
  destruct (sh_status (vertex_obj env vp)) eqn:Hv; cbn [negb];
    [ | by apply nrun_vertex_failed ].
  destruct (sh_status (fragment_obj env fp)) eqn:Hf; cbn [negb];
    [ | by apply nrun_fragment_failed ].
  destruct (pr_status (linked env vp fp [])) eqn:Hl; cbn [negb];
    [ | by apply nrun_link_failed ].
  rewrite nrun_linked by done.
  destruct (object_init env (program_name st)); [done|].
  cbn [negb expected_state Native.expected_result orb].
  destruct (init_binds_on_refusal env); reflexivity.
Qed.

(** ** How a report ends *)

Lemma report_returned d log :
  0 < Native.buffer_size d log → Native.report d log = Native.Returned None.
Proof.
  intros H. unfold Native.report.
  destruct (Z.ltb_spec (Native.buffer_size d log) 0); [lia|].
  by destruct (Z.eqb_spec (Native.buffer_size d log) 0); [lia|].
Qed.

Lemma report_threw d log :
  Native.buffer_size d log < 0 → Native.report d log = Native.Threw.
Proof.
  intros H. unfold Native.report.
  by destruct (Z.ltb_spec (Native.buffer_size d log) 0); [|lia].
Qed.

Lemma report_not_loaded d log : Native.is_loaded (Native.report d log) = false.
Proof.
  unfold Native.report.
  destruct (Native.buffer_size d log <? 0); [done|].
  by destruct (Native.buffer_size d log =? 0).
Qed.


(** ** Reading the expected traces of the native model *)

Section NativeTraces.

Variable d : Native.driver.
Variable env : collaborators.
Variables vp fp : path.
Variable st : gl_state.

Lemma native_pipeline_trace :
  ev_create st ++ Native.run_pipeline d env vp fp st pipeline =
    Native.expected_trace d env vp fp st (outcome_of env vp fp st).
Proof.
  unfold outcome_of, pipeline.
  cbn [Native.run_pipeline Native.stage_events stage_passes].
  unfold Native.expected_trace, ev_wrap, ev_read.
  destruct (assets_present env vp fp); [|reflexivity].
  destruct (sh_status (vertex_obj env vp));
    [|cbn [negb app]; by rewrite ?app_nil_r, <- ?app_assoc].
  destruct (sh_status (fragment_obj env fp));
    [|cbn [negb app]; by rewrite ?app_nil_r, <- ?app_assoc].
  destruct (pr_status (linked env vp fp []));
    [|cbn [negb app]; by rewrite ?app_nil_r, <- ?app_assoc].
  cbn [negb app]. rewrite ?app_nil_r, <- ?app_assoc.
  destruct (object_init env (program_name st)),
    (init_binds_on_refusal env); cbn [negb orb app];
    by rewrite ?app_nil_r.
Qed.

Lemma native_pipeline_passes :
  forallb (stage_passes env vp fp st) pipeline =
    Native.is_loaded
      (Native.expected_result d env vp fp st (outcome_of env vp fp st)).
Proof.
  unfold outcome_of, pipeline.
  cbn [forallb stage_passes].
  destruct (assets_present env vp fp); [|reflexivity].
  destruct (sh_status (vertex_obj env vp));
    [|cbn; by rewrite report_not_loaded].
  destruct (sh_status (fragment_obj env fp));
    [|cbn; by rewrite report_not_loaded].
  destruct (pr_status (linked env vp fp []));
    [|cbn; by rewrite report_not_loaded].
  destruct (object_init env (program_name st)); reflexivity.
Qed.

Lemma native_run_pipeline_app pre l :
  forallb (stage_passes env vp fp st) pre = true →
  Native.run_pipeline d env vp fp st (pre ++ l) =
    concat (Native.stage_events d env vp fp st <$> pre)
    ++ Native.run_pipeline d env vp fp st l.
Proof.
  induction pre as [|s pre IH]; [done|].
  cbn. intros [Hs Hpre]%andb_true_iff. rewrite Hs, IH by done.
  by rewrite app_assoc.
Qed.


Lemma native_created_shaders o :
  created_shaders (Native.expected_trace d env vp fp st o) =
    [vs_name st; fs_name st].
Proof.
  destruct o; unfold Native.expected_trace, Native.ev_vertex_error,
    Native.ev_fragment_error, Native.ev_link_error, Native.ev_shader_error,
    ev_wrap;
    try destruct (Native.report d _) as [?| |];
    try destruct (object_init env _), (init_binds_on_refusal env);
    reflexivity.
Qed.

Hypothesis Hbuf : Native.buffers_ok d env.

Lemma native_result_returned o :
  Native.expected_result d env vp fp st o = Native.Returned (expected_result st o).
Proof.
  destruct Hbuf as [Hc Hl].
  destruct o; cbn [Native.expected_result expected_result]; try reflexivity;
    apply report_returned; first [apply Hc | apply Hl].
Qed.

Lemma native_vertex_error :
  Native.ev_vertex_error d env vp st =
    [EGetShaderInfoLog (vs_name st) (Native.log_length d (sh_log (vertex_obj env vp)))
       (Native.fetched d (sh_log (vertex_obj env vp)));
     ELogError ("Error compiling vertex shader: "
                +:+ c_str (Native.fetched d (sh_log (vertex_obj env vp))) +:+ nl)].
Proof.
  unfold Native.ev_vertex_error, Native.ev_shader_error.
  by rewrite report_returned by apply Hbuf.
Qed.

Lemma native_fragment_error :
  Native.ev_fragment_error d env fp st =
    [EGetShaderInfoLog (fs_name st) (Native.log_length d (sh_log (fragment_obj env fp)))
       (Native.fetched d (sh_log (fragment_obj env fp)));
     ELogError ("Error compiling fragment shader: "
                +:+ c_str (Native.fetched d (sh_log (fragment_obj env fp))) +:+ nl)].
Proof.
  unfold Native.ev_fragment_error, Native.ev_shader_error.
  by rewrite report_returned by apply Hbuf.
Qed.

Lemma native_link_error :
  Native.ev_link_error d env vp fp st =
    [EGetProgramInfoLog (program_name st)
       (Native.log_length d (pr_log (linked env vp fp [])))
       (Native.fetched d (pr_log (linked env vp fp [])));
     ELogError ("Error linking shader program: "
                +:+ c_str (Native.fetched d (pr_log (linked env vp fp []))) +:+ nl)].
Proof.
  unfold Native.ev_link_error.
  by rewrite report_returned by apply Hbuf.
Qed.

Lemma native_logged_once o :
  is_failure o = true →
  length (logged (Native.expected_trace d env vp fp st o)) = 1%nat.
Proof.
  destruct o; try discriminate; intros _; unfold Native.expected_trace;
    rewrite ?native_vertex_error, ?native_fragment_error, ?native_link_error;
    reflexivity.
Qed.

Lemma native_diagnostics o :
  diagnostics (Native.expected_trace d env vp fp st o) =
    Native.failure_diagnostic d env vp fp o.
Proof.
  destruct o; unfold Native.expected_trace, ev_wrap;
    rewrite ?native_vertex_error, ?native_fragment_error, ?native_link_error;
    try destruct (object_init env _), (init_binds_on_refusal env);
    reflexivity.
Qed.

Lemma native_reports o :
  is_driver_failure o = true →
  reports_diagnostic (Native.expected_trace d env vp fp st o).
Proof.
  destruct o; try discriminate; intros _; unfold Native.expected_trace;
    rewrite ?native_vertex_error, ?native_fragment_error, ?native_link_error.
  - exists ("Error compiling vertex shader: "
            +:+ c_str (Native.fetched d (sh_log (vertex_obj env vp))) +:+ nl),
           (c_str (Native.fetched d (sh_log (vertex_obj env vp)))).
    split_and!; [apply list_elem_of_In; cbn; auto | apply list_elem_of_In; cbn; auto |].
    by exists "Error compiling vertex shader: ", nl.
  - exists ("Error compiling fragment shader: "
            +:+ c_str (Native.fetched d (sh_log (fragment_obj env fp))) +:+ nl),
           (c_str (Native.fetched d (sh_log (fragment_obj env fp)))).
    split_and!; [apply list_elem_of_In; cbn; auto | apply list_elem_of_In; cbn; auto |].
    by exists "Error compiling fragment shader: ", nl.
  - exists ("Error linking shader program: "
            +:+ c_str (Native.fetched d (pr_log (linked env vp fp []))) +:+ nl),
           (c_str (Native.fetched d (pr_log (linked env vp fp [])))).
    split_and!; [apply list_elem_of_In; cbn; auto | apply list_elem_of_In; cbn; auto |].
    by exists "Error linking shader program: ", nl.
Qed.

End NativeTraces.

(** A driver that reports lengths as the reference defines them, for logs
    that fit an [int], answers and fetches what the model at its best does. *)

Lemma sound_buffer_size d log :
  Native.log_length d log = info_log_length_of log →
  log_fits log →
  0 < Native.buffer_size d log.
Proof.
  unfold Native.buffer_size, log_fits, int_add. intros -> Hfit.
  destruct log as [|c l]; [reflexivity|].
  unfold info_log_length_of.
  set (n := Z.of_nat (String.length (String c l))) in *.
  rewrite wrap_int_small by lia. lia.
Qed.

Lemma sound_fetched d log :
  Native.log_length d log = info_log_length_of log →
  Native.fetched d log = retrieved log.
Proof.
  unfold Native.fetched, Native.buffer_size, retrieved. by intros ->.
Qed.

Lemma sound_buffers_ok d env :
  (∀ log, Native.log_length d log = info_log_length_of log) →
  logs_fit env →
  Native.buffers_ok d env.
Proof.
  intros Hlen [Hc Hl]. split; intros; by apply sound_buffer_size.
Qed.

Lemma sound_expected_trace d env vp fp st o :
  (∀ log, Native.log_length d log = info_log_length_of log) →
  logs_fit env →
  Native.expected_trace d env vp fp st o = expected_trace env vp fp st o.
Proof.
  intros Hlen Hfit. pose proof (sound_buffers_ok d env Hlen Hfit) as Hbuf.
  unfold Native.expected_trace, expected_trace.
  rewrite native_vertex_error, native_fragment_error, native_link_error by done.
  unfold Native.ev_vertex, Native.ev_fragment, Native.ev_link, Native.ev_compile,
    ev_vertex_error, ev_fragment_error, ev_link_error, ev_shader_error,
    ev_compile, ev_link.
  rewrite !sound_fetched by done. rewrite !Hlen. reflexivity.
Qed.

(** ** Calls in which a creation fails *)




Section NativeUnreliable.

Variable d : Native.driver.
Variable env : collaborators.
Variables vp fp : path.
Variable st : gl_state.

Ltac ncreate H :=
  nnorm; eapply nstep;
  [ first [ eapply nCreateShader_run; exact H
          | eapply nCreateShader_fail; exact H ] | ]; nnorm.

Ltac nstart Hcv Hcf Ha :=
  unfold Native.load_shaders;
  ncreate Hcv; ncreate Hcf;
  nlifted read_asset_run; nlifted read_asset_run;
  branch Ha.

Ltac nzero lem := nnorm; eapply nstep; [ apply lem | ]; nnorm.

Ltac ncompiles H :=
  nrun nShaderSource_run; nrun nCompileShader_run;
  nrun nGetShaderiv_run; nrun nGetShaderiv_run;
  nread; branch H.

(** The four calls on a shader that was never created, and the read of
    the [result] an earlier query wrote. *)
Ltac nskipped :=
  nzero nShaderSource_zero; nzero (nCompileShader_zero env);
  nzero (nGetShaderiv_zero d); nzero (nGetShaderiv_zero d);
  nread.

Ltac nattaches :=
  nnorm; eapply nstep;
  [ first
      [ eapply nAttachShader_run;
        [ lia | lia | lk | lk
        | recs; cbn [app]; rewrite ?not_elem_of_cons; split_and?;
          first [ apply not_elem_of_nil | lia ] ]
      | apply nAttachShader_zero; first [ by left | by right ] ]
  | ]; nnorm.

Ltac ndetaches :=
  nnorm; eapply nstep;
  [ first [ eapply nDetachShader_run; lia
          | apply nDetachShader_zero; first [ by left | by right ] ]
  | ]; nnorm.

Ltac ndeletes :=
  nnorm; eapply nstep;
  [ first [ eapply nDeleteShader_run; lia | apply nDeleteShader_zero ] | ]; nnorm.

Ltac ncleans :=
  ndetaches; ndetaches; ndeletes; ndeletes;
  nlifted GLObject_init_run; apply nfinish_run.

(** Linking on the 0 a failed [glCreateProgram] returned: no query is
    answered, and [result] still holds what the last shader query wrote. *)
Ltac nunlinked Hcp :=
  nnorm; eapply nstep; [ eapply nCreateProgram_fail; exact Hcp | ]; nnorm;
  nattaches; nattaches;
  nzero (nLinkProgram_zero env);
  nzero (nGetProgramiv_zero d); nzero (nGetProgramiv_zero d);
  nread.

Ltac running tac :=
  let H := fresh "Hrun" in
  eassert (H : Native.load_shaders d env vp fp st = (_, _, _));
  [ tac | rewrite H; clear H; cbn [fst snd] ].





(** An empty asset ends the call before any shader is touched, whatever
    became of the two creations. *)
Lemma nrun_missing_any :
  assets_present env vp fp = false →
  (Native.load_shaders d env vp fp st).1.1 = Native.Returned None
  ∧ ∃ vs fs,
      (Native.load_shaders d env vp fp st).2 =
        [ECreateShader GL_VERTEX_SHADER vs;
         ECreateShader GL_FRAGMENT_SHADER fs;
         EReadAsset vp; EReadAsset fp;
         ELogError ("Couldn't open shader: " +:+ vp)].
Proof.
  intros Ha. apply negb_false_iff in Ha. unfold vs_code, fs_code in Ha.
  destruct (Native.create_ok d (N.succ (last_name st))) eqn:Hcv;
    destruct (Native.create_ok d (N.succ (N.succ (last_name st)))) eqn:Hcf.
  all: running ltac:(nstart Hcv Hcf Ha; nlifted LOG_ERROR_run; reflexivity).
  all: split; [reflexivity | by eexists _, _].
Qed.

(** With both assets present, a call without a vertex shader object ends
    in the read of an [info_log_length] that no query has written. *)
Lemma nrun_no_vertex_present :
  Native.create_ok d (N.succ (last_name st)) = false →
  assets_present env vp fp = true →
  (Native.load_shaders d env vp fp st).1.1 = Native.Undefined
  ∧ ∃ fs,
      (Native.load_shaders d env vp fp st).2 =
        [ECreateShader GL_VERTEX_SHADER 0%N;
         ECreateShader GL_FRAGMENT_SHADER fs;
         EReadAsset vp; EReadAsset fp;
         EShaderSource 0%N [gl_version env; vs_code env vp];
         ECompileShader 0%N;
         EGetShaderivError 0%N GL_COMPILE_STATUS;
         EGetShaderivError 0%N GL_INFO_LOG_LENGTH].
Proof.
  intros Hcv Ha. apply negb_true_iff in Ha. unfold vs_code, fs_code in Ha.
  destruct (Native.create_ok d (N.succ (N.succ (last_name st)))) eqn:Hcf.
  - running ltac:(nstart Hcv Hcf Ha; nskipped; reflexivity).
    split; [reflexivity | by eexists].
  - running ltac:(nstart Hcv Hcf Ha; nskipped; reflexivity).
    split; [reflexivity | by eexists].
Qed.

(** With both stages compiled, a call without a program object hands 0 to
    [init]: no link-status query is answered and the test of [result] reads
    what the fragment stage's query wrote. *)
Lemma nrun_no_program_compiled :
  Native.create_ok d (N.succ (last_name st)) = true →
  Native.create_ok d (N.succ (N.succ (last_name st))) = true →
  Native.create_ok d (N.succ (N.succ (N.succ (last_name st)))) = false →
  assets_present env vp fp = true →
  sh_status (vertex_obj env vp) = true →
  sh_status (fragment_obj env fp) = true →
  (Native.load_shaders d env vp fp st).1.1 =
    Native.Returned
      (if object_init env 0%N
       then Some {| name := 0%N; deleter := Some glDeleteProgram |} else None)
  ∧ (Native.load_shaders d env vp fp st).2 =
      ev_create st ++ ev_read vp fp
      ++ Native.ev_vertex d env vp st ++ Native.ev_fragment d env fp st
      ++ [ECreateProgram 0%N;
          EAttachShader 0%N (vs_name st); EAttachShader 0%N (fs_name st);
          ELinkProgram 0%N;
          EGetProgramivError 0%N GL_LINK_STATUS;
          EGetProgramivError 0%N GL_INFO_LOG_LENGTH;
          EDetachShader 0%N (vs_name st); EDetachShader 0%N (fs_name st);
          EDeleteShader (vs_name st); EDeleteShader (fs_name st);
          EInit 0%N (object_init env 0%N)]
      ++ (if object_init env 0%N || negb (init_binds_on_refusal env)
          then [] else [EDeleteProgram 0%N]).
Proof.
  intros Hcv Hcf Hcp Ha Hv Hf.
  apply negb_true_iff in Ha. unfold vs_code, fs_code in Ha.
  unfold vertex_obj, compiled, shader_text, vs_code in Hv.
  unfold fragment_obj, compiled, shader_text, fs_code in Hf.
  cbn [sh_status] in Hv, Hf.
  running ltac:(nstart Hcv Hcf Ha; ncompiles Hv; ncompiles Hf;
                nunlinked Hcp; ncleans).
  split; [reflexivity|].
  reflexivity.
Qed.




End NativeUnreliable.

(** * The claims *)

Ltac traces :=
  unfold expected_trace, ev_create, ev_read, ev_missing, ev_vertex_error,
    ev_fragment_error, ev_shader_error, ev_compile, ev_link, ev_link_error,
    ev_cleanup, ev_wrap;
  repeat match goal with
  | |- context [object_init ?e ?p || negb (init_binds_on_refusal ?e)] =>
      let H := fresh "Hinit" in
      destruct (object_init e p) eqn:H;
      [ | destruct (init_binds_on_refusal e) ];
      cbn [orb negb]
  end;
  cbn [app orb negb].










(** C4, as the spec states it, fails: on the empty-asset failure no
    diagnostic text is ever obtained from the driver, so the logged message
    cannot contain one. *)
Lemma empty_asset_has_no_diagnostic :
  (load_shaders (demo_env true true true true) "missing.glsl" "f.glsl" st0).1.1 = None ∧
  logged (load_shaders (demo_env true true true true) "missing.glsl" "f.glsl" st0).2 =
    ["Couldn't open shader: missing.glsl"] ∧
  ¬ reports_diagnostic
      (load_shaders (demo_env true true true true) "missing.glsl" "f.glsl" st0).2.
Proof.
  split_and!; [reflexivity | reflexivity |].
  intros (msg & d & _ & Hd & _).
  replace (diagnostics _) with (@nil string) in Hd by reflexivity.
  by apply elem_of_nil in Hd.
Qed.

(** C4, amended.  On a driver that creates the objects it is asked for and
    reports info-log lengths for which the loader's buffer can be
    allocated, every failure of the spec's taxonomy returns an empty result,
    without throwing, after exactly one log message.  For a compile or link
    failure the diagnostic of the failing stage is fetched from the driver
    once and the message contains it; for an empty asset no diagnostic is
    fetched. *)
Theorem failures_return_empty_after_one_log d env vp fp st :
  Native.reliable d st = true →
  Native.buffers_ok d env →
  is_failure (outcome_of env vp fp st) = true →
  (Native.load_shaders d env vp fp st).1.1 = Native.Returned None
  ∧ length (logged (Native.load_shaders d env vp fp st).2) = 1%nat
  ∧ if is_driver_failure (outcome_of env vp fp st)
    then diagnostics (Native.load_shaders d env vp fp st).2 =
           Native.failure_diagnostic d env vp fp (outcome_of env vp fp st)
         ∧ reports_diagnostic (Native.load_shaders d env vp fp st).2
    else diagnostics (Native.load_shaders d env vp fp st).2 = [].
Proof.
  intros Hrel Hbuf Hfail. rewrite (native_run _ _ _ _ _ Hrel). cbn [fst snd].
  rewrite native_result_returned, native_diagnostics by done.
  split_and!.
  - by destruct (outcome_of env vp fp st).
  - by apply native_logged_once.
  - destruct (is_driver_failure (outcome_of env vp fp st)) eqn:Hd.
    + split; [done | by apply native_reports].
    + by destruct (outcome_of env vp fp st).
Qed.

Lemma demo_logs_fit a b c d : logs_fit (demo_env a b c d).
Proof.
  split.
  - intros [] src; cbn; [destruct a | destruct b]; reflexivity.
  - intros l; cbn; destruct c; reflexivity.
Qed.

Lemma demo_buffers_ok a b c d :
  Native.buffers_ok Native.sound_driver (demo_env a b c d).
Proof. apply sound_buffers_ok; [done | apply demo_logs_fit]. Qed.

Lemma failures_return_empty_after_one_log_witness :
  (Native.reliable Native.sound_driver st0 = true
   ∧ is_failure (outcome_of (demo_env true false true true) "v.glsl" "f.glsl" st0)
     = true)
  ∧ (Native.load_shaders Native.sound_driver (demo_env true false true true)
       "v.glsl" "f.glsl" st0).1.1 = Native.Returned None
  ∧ length
      (logged
         (Native.load_shaders Native.sound_driver (demo_env true false true true)
            "v.glsl" "f.glsl" st0).2) = 1%nat
  ∧ if is_driver_failure
         (outcome_of (demo_env true false true true) "v.glsl" "f.glsl" st0)
    then diagnostics
           (Native.load_shaders Native.sound_driver (demo_env true false true true)
              "v.glsl" "f.glsl" st0).2 =
           Native.failure_diagnostic Native.sound_driver
             (demo_env true false true true) "v.glsl" "f.glsl"
             (outcome_of (demo_env true false true true) "v.glsl" "f.glsl" st0)
         ∧ reports_diagnostic
             (Native.load_shaders Native.sound_driver (demo_env true false true true)
                "v.glsl" "f.glsl" st0).2
    else diagnostics
           (Native.load_shaders Native.sound_driver (demo_env true false true true)
              "v.glsl" "f.glsl" st0).2 = [].
Proof.
  split; [by split|].
  apply (failures_return_empty_after_one_log Native.sound_driver
           (demo_env true false true true) "v.glsl" "f.glsl" st0).
  - reflexivity.
  - apply demo_buffers_ok.
  - reflexivity.
Defined.

(** C5, as the spec states it, fails: both stages compile and the program
    links, yet the wrapper's [init] refuses the name and the call returns an
    empty result. *)
Lemma linked_program_refused_by_init :
  (assets_present (demo_env true true true false) "v.glsl" "f.glsl" = true
   ∧ sh_status (vertex_obj (demo_env true true true false) "v.glsl") = true
   ∧ sh_status (fragment_obj (demo_env true true true false) "f.glsl") = true
   ∧ pr_status (linked (demo_env true true true false) "v.glsl" "f.glsl" []) = true)
  ∧ (load_shaders (demo_env true true true false) "v.glsl" "f.glsl" st0).1.1 = None
  ∧ (Native.load_shaders Native.sound_driver (demo_env true true true false)
       "v.glsl" "f.glsl" st0).1.1 = Native.Returned None.
Proof. by split_and!. Qed.

(** C5, amended.  When both stages compile, the program links and [init]
    accepts the name, [load_shaders] ends with the two detach calls, the two
    shader deletions and [init]; it returns a wrapper holding the program's
    name with [glDeleteProgram] as its deleter; and the table on return is
    the table on entry plus the linked program, so neither shader object
    remains. *)
Theorem load_shaders_success env vp fp st :
  wf st = true →
  assets_present env vp fp = true →
  sh_status (vertex_obj env vp) = true →
  sh_status (fragment_obj env fp) = true →
  pr_status (linked env vp fp []) = true →
  object_init env (program_name st) = true →
  (load_shaders env vp fp st).1.1 =
    Some {| name := program_name st; deleter := Some glDeleteProgram |}
  ∧ (∃ pre, (load_shaders env vp fp st).2 =
       pre ++ [EDetachShader (program_name st) (vs_name st);
               EDetachShader (program_name st) (fs_name st);
               EDeleteShader (vs_name st);
               EDeleteShader (fs_name st);
               EInit (program_name st) true])
  ∧ objects (load_shaders env vp fp st).1.2 =
      <[program_name st := Program (linked env vp fp [])]> (objects st)
  ∧ objects (load_shaders env vp fp st).1.2 !! vs_name st = None
  ∧ objects (load_shaders env vp fp st).1.2 !! fs_name st = None.
Proof.
  intros Hwf Ha Hv Hf Hl Hi.
  rewrite load_shaders_run, (outcome_linked _ _ _ _ Ha Hv Hf Hl), Hi.
  cbn [fst snd expected_result expected_state].
  split_and!.
  - reflexivity.
  - exists (take 18 (expected_trace env vp fp st Loaded)).
    unfold expected_trace, ev_create, ev_read, ev_compile, ev_link, ev_cleanup,
      ev_wrap.
    cbn [app take]. by rewrite Hi.
  - by apply st_cleaned_objects.
  - by apply st_cleaned_no_shader.
  - by apply st_cleaned_no_shader.
Qed.

Lemma load_shaders_success_witness :
  (wf st0 = true
   ∧ assets_present (demo_env true true true true) "v.glsl" "f.glsl" = true
   ∧ sh_status (vertex_obj (demo_env true true true true) "v.glsl") = true
   ∧ sh_status (fragment_obj (demo_env true true true true) "f.glsl") = true
   ∧ pr_status (linked (demo_env true true true true) "v.glsl" "f.glsl" []) = true
   ∧ object_init (demo_env true true true true) (program_name st0) = true)
  ∧ (load_shaders (demo_env true true true true) "v.glsl" "f.glsl" st0).1.1 =
      Some {| name := program_name st0; deleter := Some glDeleteProgram |}
  ∧ (∃ pre, (load_shaders (demo_env true true true true) "v.glsl" "f.glsl" st0).2 =
       pre ++ [EDetachShader (program_name st0) (vs_name st0);
               EDetachShader (program_name st0) (fs_name st0);
               EDeleteShader (vs_name st0);
               EDeleteShader (fs_name st0);
               EInit (program_name st0) true])
  ∧ objects (load_shaders (demo_env true true true true) "v.glsl" "f.glsl" st0).1.2 =
      <[program_name st0 :=
          Program (linked (demo_env true true true true) "v.glsl" "f.glsl" [])]>
        (objects st0)
  ∧ objects (load_shaders (demo_env true true true true) "v.glsl" "f.glsl" st0).1.2
      !! vs_name st0 = None
  ∧ objects (load_shaders (demo_env true true true true) "v.glsl" "f.glsl" st0).1.2
      !! fs_name st0 = None.
Proof.
  split; [by split_and!|].
  apply (load_shaders_success (demo_env true true true true) "v.glsl" "f.glsl" st0);
    reflexivity.
Defined.

(** Releasing the wrapper that a successful call returned runs its deleter
    and gives the table of before the call back. *)
Lemma release_restores_table env vp fp st :
  wf st = true →
  objects
    (GLObject_destroy {| name := program_name st; deleter := Some glDeleteProgram |}
       (st_cleaned env vp fp st)).1.2 = objects st.
Proof.
  intros Hwf. unfold GLObject_destroy. cbn [deleter name].
  unfold glDeleteProgram. cbn [fst snd].
  by apply delete_program_cleaned_objects.
Qed.

(** C6.  When either asset reads back empty, [load_shaders] returns an
    empty result and its trace holds no [glShaderSource] and no
    [glCompileShader] call. *)
Theorem empty_asset_no_compiler_call env vp fp st :
  empty (vs_code env vp) = true ∨ empty (fs_code env fp) = true →
  (load_shaders env vp fp st).1.1 = None
  ∧ Forall (λ e, is_compiler_call e = false) (load_shaders env vp fp st).2.
Proof.
  intros Ha. apply assets_missing_iff in Ha.
  rewrite load_shaders_run, (outcome_asset_missing _ _ _ _ Ha).
  split; [reflexivity|]. cbn. by repeat constructor.
Qed.

Lemma empty_asset_no_compiler_call_witness :
  (empty (vs_code (demo_env true true true true) "v.glsl") = true ∨
   empty (fs_code (demo_env true true true true) "missing.glsl") = true)
  ∧ (load_shaders (demo_env true true true true) "v.glsl" "missing.glsl" st0).1.1 = None
  ∧ Forall (λ e, is_compiler_call e = false)
      (load_shaders (demo_env true true true true) "v.glsl" "missing.glsl" st0).2.
Proof.
  split; [right; reflexivity|].
  apply (empty_asset_no_compiler_call (demo_env true true true true)
           "v.glsl" "missing.glsl" st0).
  right; reflexivity.
Defined.

(** C7.  The preamble is "#version 300 es\nprecision highp float;\n" on
    Android and "#version 410 core\n" elsewhere.  In every call each
    [glShaderSource] hands the driver the preamble first and then the text
    of the asset of that stage, each [glCompileShader] comes right after
    such an upload, and the text compiled is the preamble followed by the
    asset's text; this holds for the vertex stage whenever the assets are
    present and for the fragment stage whenever the vertex stage compiled. *)
Theorem preamble_precedes_source env vp fp st :
  gl_version env =
    (if android env
     then "#version 300 es" +:+ nl +:+ "precision highp float;" +:+ nl
     else "#version 410 core" +:+ nl)
  ∧ (∀ code, shader_text env code = gl_version env +:+ c_str code)
  ∧ Forall (source_upload_ok env vp fp st) (load_shaders env vp fp st).2
  ∧ sourced_before_compile (gl_version env) None (load_shaders env vp fp st).2
  ∧ (assets_present env vp fp = true →
     EShaderSource (vs_name st) [gl_version env; vs_code env vp]
       ∈ (load_shaders env vp fp st).2
     ∧ (sh_status (vertex_obj env vp) = true →
        EShaderSource (fs_name st) [gl_version env; fs_code env fp]
          ∈ (load_shaders env vp fp st).2)).
Proof.
  split_and!.
  - reflexivity.
  - intros code. unfold shader_text. cbn. by rewrite c_str_gl_version.
  - rewrite load_shaders_run. cbn [snd].
    destruct (outcome_of env vp fp st); traces;
      repeat (apply List.Forall_cons; [cbn; by auto|]); apply List.Forall_nil.
  - rewrite load_shaders_run. cbn [snd].
    destruct (outcome_of env vp fp st); traces;
      cbn [sourced_before_compile]; split_and!; eauto.
  - intros Ha. rewrite load_shaders_run. cbn [snd]. unfold outcome_of.
    rewrite Ha. cbn [negb].
    destruct (sh_status (vertex_obj env vp)); cbn [negb].
    + destruct (sh_status (fragment_obj env fp)); cbn [negb];
        [ destruct (pr_status (linked env vp fp [])); cbn [negb];
          [ destruct (object_init env (program_name st)) | ] | ];
        traces; split; intros; set_solver.
    + traces. split; [set_solver | discriminate].
Qed.

Lemma preamble_precedes_source_witness :
  assets_present (demo_env true true true true) "v.glsl" "f.glsl" = true ∧
  sh_status (vertex_obj (demo_env true true true true) "v.glsl") = true ∧
  EShaderSource 1%N ["#version 410 core" +:+ nl; "void main(){}"]
    ∈ (load_shaders (demo_env true true true true) "v.glsl" "f.glsl" st0).2 ∧
  EShaderSource 2%N ["#version 410 core" +:+ nl; "void main(){}"]
    ∈ (load_shaders (demo_env true true true true) "v.glsl" "f.glsl" st0).2.
Proof.
  destruct (preamble_precedes_source (demo_env true true true true)
              "v.glsl" "f.glsl" st0) as (_ & _ & _ & _ & H).
  destruct (H eq_refl) as [Hv Hf].
  split_and!; [reflexivity | reflexivity | exact Hv | exact (Hf eq_refl)].
Defined.

(** C8, as the spec states it, fails twice over on one run.  The first
    call of the run is not the read of the vertex source: both shader
    objects are created before anything is read.  And a failure is not
    always terminal: when the creation of the fragment shader fails, the
    fragment stage compiles nothing and its status query is not answered,
    yet [result] keeps the 1 of the vertex stage, the run goes on to link,
    and a wrapper is returned. *)
Lemma failed_fragment_stage_is_not_terminal :
  (Native.load_shaders (Native.failing_at 2%N) (demo_env true true true true)
     "v.glsl" "f.glsl" st0).2 =
    [ECreateShader GL_VERTEX_SHADER 1%N;
     ECreateShader GL_FRAGMENT_SHADER 0%N;
     EReadAsset "v.glsl"; EReadAsset "f.glsl";
     EShaderSource 1%N ["#version 410 core" +:+ nl; "void main(){}"];
     ECompileShader 1%N;
     EGetShaderiv 1%N GL_COMPILE_STATUS 1;
     EGetShaderiv 1%N GL_INFO_LOG_LENGTH 0;
     EShaderSource 0%N ["#version 410 core" +:+ nl; "void main(){}"];
     ECompileShader 0%N;
     EGetShaderivError 0%N GL_COMPILE_STATUS;
     EGetShaderivError 0%N GL_INFO_LOG_LENGTH;
     ECreateProgram 3%N;
     EAttachShader 3%N 1%N; EAttachShader 3%N 0%N;
     ELinkProgram 3%N;
     EGetProgramiv 3%N GL_LINK_STATUS 1;
     EGetProgramiv 3%N GL_INFO_LOG_LENGTH 0;
     EDetachShader 3%N 1%N; EDetachShader 3%N 0%N;
     EDeleteShader 1%N; EDeleteShader 0%N;
     EInit 3%N true]
  ∧ (Native.load_shaders (Native.failing_at 2%N) (demo_env true true true true)
       "v.glsl" "f.glsl" st0).1.1 =
      Native.Returned (Some {| name := 3%N; deleter := Some glDeleteProgram |}).
Proof. split; reflexivity. Qed.

(** C8, amended.  On a driver that creates the objects it is asked for, the
    calls of [load_shaders] are the two shader creations followed by one
    pass over the stages read vertex, read fragment, validate, compile
    vertex, compile fragment, link, clean up, wrap, in that order, each
    stage at most once.  A wrapper is returned exactly when every stage
    passes; when a stage fails, the trace ends with that stage's calls, so
    no later stage runs and nothing is retried, and the call returns an
    empty result whenever the buffer for the info log can be allocated. *)
Theorem reliable_run_is_one_linear_pass d env vp fp st :
  Native.reliable d st = true →
  (Native.load_shaders d env vp fp st).2 =
    ev_create st ++ Native.run_pipeline d env vp fp st pipeline
  ∧ Native.is_loaded (Native.load_shaders d env vp fp st).1.1 =
      forallb (stage_passes env vp fp st) pipeline
  ∧ NoDup pipeline
  ∧ (∀ pre s post,
       pipeline = pre ++ s :: post →
       forallb (stage_passes env vp fp st) pre = true →
       stage_passes env vp fp st s = false →
       Native.is_loaded (Native.load_shaders d env vp fp st).1.1 = false
       ∧ (Native.buffers_ok d env →
          (Native.load_shaders d env vp fp st).1.1 = Native.Returned None)
       ∧ (Native.load_shaders d env vp fp st).2 =
           ev_create st
           ++ concat (Native.stage_events d env vp fp st <$> pre)
           ++ Native.stage_events d env vp fp st s).
Proof.
  intros Hrel. rewrite (native_run _ _ _ _ _ Hrel). cbn [fst snd].
  rewrite native_pipeline_trace, (native_pipeline_passes d).
  split_and!; try reflexivity.
  - apply (bool_decide_unpack _). vm_compute. exact I.
  - intros pre s post Hp Hpre Hs.
    rewrite <- native_pipeline_trace.
    assert (Hall : forallb (stage_passes env vp fp st) pipeline = false).
    { rewrite Hp, forallb_app. cbn. rewrite Hs. by rewrite andb_false_r. }
    rewrite (native_pipeline_passes d) in Hall.
    split_and!.
    + done.
    + intros Hbuf. rewrite native_result_returned in Hall |- * by done.
      by destruct (expected_result st (outcome_of env vp fp st)).
    + rewrite Hp, native_run_pipeline_app by done.
      cbn. rewrite Hs. by rewrite app_nil_r.
Qed.

Lemma reliable_run_is_one_linear_pass_witness :
  (Native.reliable Native.sound_driver st0 = true
   ∧ pipeline = [ReadVertex; ReadFragment; Validate; CompileVertex]
                ++ CompileFragment :: [LinkProgram; Cleanup; Wrap]
   ∧ forallb (stage_passes (demo_env true false true true) "v.glsl" "f.glsl" st0)
       [ReadVertex; ReadFragment; Validate; CompileVertex] = true
   ∧ stage_passes (demo_env true false true true) "v.glsl" "f.glsl" st0
       CompileFragment = false
   ∧ Native.buffers_ok Native.sound_driver (demo_env true false true true))
  ∧ (Native.load_shaders Native.sound_driver (demo_env true false true true)
       "v.glsl" "f.glsl" st0).1.1 = Native.Returned None
  ∧ (Native.load_shaders Native.sound_driver (demo_env true false true true)
       "v.glsl" "f.glsl" st0).2 =
      ev_create st0
      ++ concat (Native.stage_events Native.sound_driver
                   (demo_env true false true true) "v.glsl" "f.glsl" st0
                   <$> [ReadVertex; ReadFragment; Validate; CompileVertex])
      ++ Native.stage_events Native.sound_driver
           (demo_env true false true true) "v.glsl" "f.glsl" st0 CompileFragment.
Proof.
  split; [split_and!; try reflexivity; apply demo_buffers_ok|].
  destruct (reliable_run_is_one_linear_pass Native.sound_driver
              (demo_env true false true true) "v.glsl" "f.glsl" st0 eq_refl)
    as (_ & _ & _ & H).
  destruct (H [ReadVertex; ReadFragment; Validate; CompileVertex] CompileFragment
              [LinkProgram; Cleanup; Wrap] eq_refl eq_refl eq_refl)
    as (_ & Hret & Htr).
  split; [exact (Hret (demo_buffers_ok true false true true)) | exact Htr].
Defined.

(** C9.  On the empty-asset path the one logged message is
    "Couldn't open shader: " followed by the vertex path, whichever of the
    two assets was the empty one. *)
Theorem missing_asset_log_names_vertex_path env vp fp st :
  empty (vs_code env vp) = true ∨ empty (fs_code env fp) = true →
  logged (load_shaders env vp fp st).2 = ["Couldn't open shader: " +:+ vp].
Proof.
  intros Ha. apply assets_missing_iff in Ha.
  by rewrite load_shaders_run, (outcome_asset_missing _ _ _ _ Ha).
Qed.

Lemma missing_asset_log_names_vertex_path_witness :
  (empty (vs_code (demo_env true true true true) "v.glsl") = false
   ∧ (empty (vs_code (demo_env true true true true) "v.glsl") = true ∨
      empty (fs_code (demo_env true true true true) "missing.glsl") = true))
  ∧ logged (load_shaders (demo_env true true true true) "v.glsl" "missing.glsl" st0).2 =
      ["Couldn't open shader: v.glsl"].
Proof.
  split; [split; [reflexivity | right; reflexivity]|].
  apply (missing_asset_log_names_vertex_path (demo_env true true true true)
           "v.glsl" "missing.glsl" st0).
  right; reflexivity.
Defined.

(** A refused [init] past a successful link.  What the source settles is
    that the call returns an empty result and that the loader itself makes
    no log call on the way.  Whether the linked program is deleted is
    decided by the wrapper going out of scope, that is by code that is not
    in [shader.cpp]: both readings of a refusing [init] are kept, and they
    disagree. *)

Lemma refused_init_returns_empty env vp fp st :
  assets_present env vp fp = true →
  sh_status (vertex_obj env vp) = true →
  sh_status (fragment_obj env fp) = true →
  pr_status (linked env vp fp []) = true →
  object_init env (program_name st) = false →
  (load_shaders env vp fp st).1.1 = None
  ∧ logged (load_shaders env vp fp st).2 = [].
Proof.
  intros Ha Hv Hf Hl Hi.
  rewrite load_shaders_run, (outcome_linked _ _ _ _ Ha Hv Hf Hl), Hi.
  cbn [fst snd expected_result]. split; [done|].
  unfold expected_trace, ev_wrap. rewrite Hi.
  by destruct (init_binds_on_refusal env).
Qed.

Lemma refused_init_unbound_keeps_program env vp fp st :
  assets_present env vp fp = true →
  sh_status (vertex_obj env vp) = true →
  sh_status (fragment_obj env fp) = true →
  pr_status (linked env vp fp []) = true →
  object_init env (program_name st) = false →
  init_binds_on_refusal env = false →
  Forall (λ e, is_delete_program e = false) (load_shaders env vp fp st).2
  ∧ objects (load_shaders env vp fp st).1.2 !! program_name st =
      Some (Program (linked env vp fp [])).
Proof.
  intros Ha Hv Hf Hl Hi Hb.
  rewrite load_shaders_run, (outcome_linked _ _ _ _ Ha Hv Hf Hl), Hi.
  cbn [fst snd expected_state]. rewrite Hb. split.
  - unfold expected_trace, ev_wrap. rewrite Hi, Hb. cbn. by repeat constructor.
  - apply st_cleaned_program.
Qed.

Lemma refused_init_bound_deletes_program env vp fp st :
  assets_present env vp fp = true →
  sh_status (vertex_obj env vp) = true →
  sh_status (fragment_obj env fp) = true →
  pr_status (linked env vp fp []) = true →
  object_init env (program_name st) = false →
  init_binds_on_refusal env = true →
  last (load_shaders env vp fp st).2 = Some (EDeleteProgram (program_name st))
  ∧ objects (load_shaders env vp fp st).1.2 !! program_name st = None.
Proof.
  intros Ha Hv Hf Hl Hi Hb.
  rewrite load_shaders_run, (outcome_linked _ _ _ _ Ha Hv Hf Hl), Hi.
  cbn [fst snd expected_state]. rewrite Hb. split.
  - unfold expected_trace, ev_wrap. by rewrite Hi, Hb.
  - rewrite delete_program_cleaned. cbn [objects remove_object].
    apply lookup_delete_eq.
Qed.

(** * Further properties of [load_shaders] *)

Lemma delete_shader_other h S k :
  k ≠ h → objects (delete_shader h S) !! k = objects S !! k.
Proof.
  intros Hk. unfold delete_shader.
  destruct (objects S !! h) as [[s|p]|]; try done.
  destruct (attached_anywhere h (objects S)); cbn.
  - by rewrite lookup_insert_ne.
  - by rewrite lookup_delete_ne.
Qed.

Lemma expected_state_frame env vp fp st o k :
  (k ≤ last_name st)%N →
  objects (expected_state env vp fp st o) !! k = objects st !! k.
Proof.
  intros Hk.
  destruct o; cbn [expected_state];
    try destruct (init_binds_on_refusal env);
    rewrite ?delete_program_cleaned; cbn [objects remove_object];
    rewrite ?lookup_delete_ne by (unfold program_name; lia);
    unfold st_cleaned;
    rewrite ?delete_shader_other by (unfold vs_name, fs_name; lia);
    unfold st_linked, st_fragment, st_vertex, st_created, vs_name, fs_name,
      program_name;
    cbn [objects set_object];
    by repeat (rewrite lookup_insert_ne by lia).
Qed.

Lemma expected_state_last_name env vp fp st o :
  last_name (expected_state env vp fp st o) =
    match o with
    | AssetMissing | VertexCompileFailed | FragmentCompileFailed => fs_name st
    | LinkFailed | InitRefused | Loaded => program_name st
    end.
Proof.
  destruct o; cbn [expected_state];
    try destruct (init_binds_on_refusal env);
    rewrite ?delete_program_cleaned_last_name; unfold st_cleaned;
    rewrite ?delete_shader_last_name; reflexivity.
Qed.

Lemma result_some_inv env vp fp st obj :
  (load_shaders env vp fp st).1.1 = Some obj →
  outcome_of env vp fp st = Loaded
  ∧ obj = {| name := program_name st; deleter := Some glDeleteProgram |}.
Proof.
  rewrite load_shaders_run. cbn [fst].
  destruct (outcome_of env vp fp st); try discriminate.
  by intros [= <-].
Qed.

Lemma outcome_reaches_link env vp fp st :
  passes_link_check (outcome_of env vp fp st) = true
  ∨ outcome_of env vp fp st = LinkFailed →
  assets_present env vp fp = true
  ∧ sh_status (vertex_obj env vp) = true
  ∧ sh_status (fragment_obj env fp) = true.
Proof.
  unfold outcome_of.
  destruct (assets_present env vp fp); cbn [negb]; [|intros [|]; discriminate].
  destruct (sh_status (vertex_obj env vp)); cbn [negb]; [|intros [|]; discriminate].
  destruct (sh_status (fragment_obj env fp)); cbn [negb]; [|intros [|]; discriminate].
  done.
Qed.

Lemma outcome_link_failed env vp fp st :
  assets_present env vp fp = true →
  sh_status (vertex_obj env vp) = true →
  sh_status (fragment_obj env fp) = true →
  pr_status (linked env vp fp []) = false →
  outcome_of env vp fp st = LinkFailed.
Proof. intros Ha Hv Hf Hl. unfold outcome_of. by rewrite Ha, Hv, Hf, Hl. Qed.

Lemma outcome_vertex_failed env vp fp st :
  assets_present env vp fp = true →
  sh_status (vertex_obj env vp) = false →
  outcome_of env vp fp st = VertexCompileFailed.
Proof. intros Ha Hv. unfold outcome_of. by rewrite Ha, Hv. Qed.

(** X1.  A call leaves every object that was in the table before it as it
    was: under each name the driver had handed out before the call, the
    table on return holds what it held on entry, whatever the outcome. *)
Theorem load_shaders_frame env vp fp st k :
  (k ≤ last_name st)%N →
  objects (load_shaders env vp fp st).1.2 !! k = objects st !! k.
Proof. intros Hk. rewrite load_shaders_run. by apply expected_state_frame. Qed.

Lemma load_shaders_frame_witness :
  (1 ≤ last_name st_busy)%N
  ∧ objects (load_shaders (demo_env true true true true) "v.glsl" "f.glsl" st_busy).1.2
      !! 1%N = objects st_busy !! 1%N.
Proof.
  split; [reflexivity|].
  apply (load_shaders_frame (demo_env true true true true) "v.glsl" "f.glsl"
           st_busy 1%N).
  reflexivity.
Defined.

Ltac ntraces :=
  unfold Native.expected_trace, ev_create, ev_read, ev_missing,
    Native.ev_vertex, Native.ev_fragment, Native.ev_compile,
    Native.ev_vertex_error, Native.ev_fragment_error, Native.ev_shader_error,
    Native.ev_link, Native.ev_link_error, ev_cleanup, ev_wrap;
  repeat match goal with
  | |- context [match Native.report ?d ?log with _ => _ end] =>
      destruct (Native.report d log) as [?| |]
  | |- context [object_init ?e ?p || negb (init_binds_on_refusal ?e)] =>
      let H := fresh "Hinit" in
      destruct (object_init e p) eqn:H;
      [ | destruct (init_binds_on_refusal e) ];
      cbn [orb negb]
  end;
  cbn [app orb negb].

(** X2.  When both stages compile and the link fails, on a driver that
    creates the objects it is asked for, the call makes no detach and no
    delete call: the program object it created is still in the table,
    unlinked, with both shaders attached, and both shader objects are still
    in the table.  This holds however the report of the failure ends: the
    call returns an empty result when the buffer for the info log can be
    allocated, and throws when the size it asks for is negative. *)
Theorem link_failure_leaves_program d env vp fp st :
  Native.reliable d st = true →
  assets_present env vp fp = true →
  sh_status (vertex_obj env vp) = true →
  sh_status (fragment_obj env fp) = true →
  pr_status (linked env vp fp []) = false →
  (0 < Native.buffer_size d (pr_log (linked env vp fp [])) →
   (Native.load_shaders d env vp fp st).1.1 = Native.Returned None)
  ∧ (Native.buffer_size d (pr_log (linked env vp fp [])) < 0 →
     (Native.load_shaders d env vp fp st).1.1 = Native.Threw)
  ∧ Native.is_loaded (Native.load_shaders d env vp fp st).1.1 = false
  ∧ Forall (λ e, is_release e = false) (Native.load_shaders d env vp fp st).2
  ∧ objects (Native.load_shaders d env vp fp st).1.2 !! program_name st =
      Some (Program {| pr_attached := [vs_name st; fs_name st];
                       pr_status := false;
                       pr_log := (link env [vertex_obj env vp; fragment_obj env fp]).2 |})
  ∧ objects (Native.load_shaders d env vp fp st).1.2 !! vs_name st =
      Some (Shader (vertex_obj env vp))
  ∧ objects (Native.load_shaders d env vp fp st).1.2 !! fs_name st =
      Some (Shader (fragment_obj env fp)).
Proof.
  intros Hrel Ha Hv Hf Hl.
  rewrite (native_run _ _ _ _ _ Hrel), (outcome_link_failed _ _ _ _ Ha Hv Hf Hl).
  cbn [fst snd Native.expected_result expected_state].
  split_and!.
  - apply report_returned.
  - apply report_threw.
  - apply report_not_loaded.
  - ntraces; by repeat constructor.
  - unfold st_linked. cbn [objects]. rewrite lookup_insert_eq.
    unfold linked in *. cbn [pr_status] in Hl. by rewrite Hl.
  - lk.
  - lk.
Qed.

Lemma link_failure_leaves_program_witness :
  (Native.reliable Native.sound_driver st0 = true
   ∧ assets_present (demo_env true true false true) "v.glsl" "f.glsl" = true
   ∧ sh_status (vertex_obj (demo_env true true false true) "v.glsl") = true
   ∧ sh_status (fragment_obj (demo_env true true false true) "f.glsl") = true
   ∧ pr_status (linked (demo_env true true false true) "v.glsl" "f.glsl" []) = false
   ∧ 0 < Native.buffer_size Native.sound_driver
           (pr_log (linked (demo_env true true false true) "v.glsl" "f.glsl" [])))
  ∧ (Native.load_shaders Native.sound_driver (demo_env true true false true)
       "v.glsl" "f.glsl" st0).1.1 = Native.Returned None
  ∧ Forall (λ e, is_release e = false)
      (Native.load_shaders Native.sound_driver (demo_env true true false true)
         "v.glsl" "f.glsl" st0).2
  ∧ objects
      (Native.load_shaders Native.sound_driver (demo_env true true false true)
         "v.glsl" "f.glsl" st0).1.2 !! program_name st0 =
      Some (Program {| pr_attached := [vs_name st0; fs_name st0];
                       pr_status := false;
                       pr_log := (link (demo_env true true false true)
                                    [vertex_obj (demo_env true true false true) "v.glsl";
                                     fragment_obj (demo_env true true false true) "f.glsl"]).2 |}).
Proof.
  split; [by split_and!|].
  destruct (link_failure_leaves_program Native.sound_driver
              (demo_env true true false true) "v.glsl" "f.glsl" st0
              eq_refl eq_refl eq_refl eq_refl eq_refl)
    as (Hret & _ & _ & Hrel & Hp & _).
  split_and!; [exact (Hret eq_refl) | exact Hrel | exact Hp].
Defined.

(** X3.  Two successful loads, one after the other, return wrappers around
    two different program names, and on return from the second call both
    programs are in the table, linked: the second call leaves the first
    program alone. *)
Theorem two_loads_two_programs env vp fp vp' fp' st o1 o2 :
  (load_shaders env vp fp st).1.1 = Some o1 →
  (load_shaders env vp' fp' (load_shaders env vp fp st).1.2).1.1 = Some o2 →
  name o1 ≠ name o2
  ∧ objects (load_shaders env vp' fp' (load_shaders env vp fp st).1.2).1.2 !! name o1 =
      Some (Program (linked env vp fp []))
  ∧ objects (load_shaders env vp' fp' (load_shaders env vp fp st).1.2).1.2 !! name o2 =
      Some (Program (linked env vp' fp' [])).
Proof.
  intros H1 H2.
  apply result_some_inv in H1 as [Ho1 ->].
  apply result_some_inv in H2 as [Ho2 ->]. cbn [name].
  assert (Hst : (load_shaders env vp fp st).1.2 = st_cleaned env vp fp st)
    by (by rewrite load_shaders_run, Ho1).
  assert (Hlast : last_name (load_shaders env vp fp st).1.2 = program_name st).
  { rewrite load_shaders_run. cbn [fst snd].
    by rewrite expected_state_last_name, Ho1. }
  split_and!.
  - unfold program_name at 2. rewrite Hlast. unfold program_name. lia.
  - rewrite (load_shaders_run env vp' fp'). cbn [fst snd].
    rewrite expected_state_frame by (rewrite Hlast; lia).
    rewrite Hst. apply st_cleaned_program.
  - rewrite (load_shaders_run env vp' fp'), Ho2. cbn [fst snd expected_state].
    apply st_cleaned_program.
Qed.

Lemma two_loads_two_programs_witness :
  ((load_shaders (demo_env true true true true) "v.glsl" "f.glsl" st0).1.1 =
     Some {| name := 3%N; deleter := Some glDeleteProgram |}
   ∧ (load_shaders (demo_env true true true true) "v.glsl" "f.glsl"
        (load_shaders (demo_env true true true true) "v.glsl" "f.glsl" st0).1.2).1.1 =
     Some {| name := 6%N; deleter := Some glDeleteProgram |})
  ∧ 3%N ≠ 6%N
  ∧ objects
      (load_shaders (demo_env true true true true) "v.glsl" "f.glsl"
         (load_shaders (demo_env true true true true) "v.glsl" "f.glsl" st0).1.2).1.2
      !! 3%N =
      Some (Program (linked (demo_env true true true true) "v.glsl" "f.glsl" []))
  ∧ objects
      (load_shaders (demo_env true true true true) "v.glsl" "f.glsl"
         (load_shaders (demo_env true true true true) "v.glsl" "f.glsl" st0).1.2).1.2
      !! 6%N =
      Some (Program (linked (demo_env true true true true) "v.glsl" "f.glsl" [])).
Proof.
  split; [split; reflexivity|].
  apply (two_loads_two_programs (demo_env true true true true)
           "v.glsl" "f.glsl" "v.glsl" "f.glsl" st0
           {| name := 3%N; deleter := Some glDeleteProgram |}
           {| name := 6%N; deleter := Some glDeleteProgram |}); reflexivity.
Defined.

(** X4.  The linker is only ever run on two compiled stages.  On a driver
    that creates the objects it is asked for, a run that calls
    [glLinkProgram] at all calls it on the program created by that run, and
    its calls up to and including that one are, in this order: the two
    shader creations, the two reads, upload, compilation and the two queries
    of the vertex shader with GL_TRUE for GL_COMPILE_STATUS, the same for
    the fragment shader, the creation of the program, the attachment of the
    vertex and then of the fragment shader, and the link. *)
Theorem link_only_after_both_compile d env vp fp st p :
  Native.reliable d st = true →
  ELinkProgram p ∈ (Native.load_shaders d env vp fp st).2 →
  p = program_name st
  ∧ ∃ post,
      (Native.load_shaders d env vp fp st).2 =
        [ECreateShader GL_VERTEX_SHADER (vs_name st);
         ECreateShader GL_FRAGMENT_SHADER (fs_name st);
         EReadAsset vp; EReadAsset fp;
         EShaderSource (vs_name st) [gl_version env; vs_code env vp];
         ECompileShader (vs_name st);
         EGetShaderiv (vs_name st) GL_COMPILE_STATUS 1;
         EGetShaderiv (vs_name st) GL_INFO_LOG_LENGTH
           (Native.log_length d (sh_log (vertex_obj env vp)));
         EShaderSource (fs_name st) [gl_version env; fs_code env fp];
         ECompileShader (fs_name st);
         EGetShaderiv (fs_name st) GL_COMPILE_STATUS 1;
         EGetShaderiv (fs_name st) GL_INFO_LOG_LENGTH
           (Native.log_length d (sh_log (fragment_obj env fp)));
         ECreateProgram (program_name st);
         EAttachShader (program_name st) (vs_name st);
         EAttachShader (program_name st) (fs_name st);
         ELinkProgram (program_name st)] ++ post.
Proof.
  intros Hrel. rewrite (native_run _ _ _ _ _ Hrel). cbn [snd].
  destruct (outcome_of env vp fp st) eqn:Ho.
  1-3: ntraces; intros H; apply list_elem_of_In in H; cbn in H;
       intuition discriminate.
  all: destruct (outcome_reaches_link env vp fp st) as (_ & Hv & Hf);
         [ rewrite Ho; by auto | ];
       intros H;
       assert (p = program_name st)
         by (revert H; ntraces; intros H; apply list_elem_of_In in H; cbn in H;
             intuition congruence);
       subst p; split; [done|];
       exists (drop 16 (Native.expected_trace d env vp fp st (outcome_of env vp fp st)));
       rewrite Ho;
       unfold Native.expected_trace, ev_create, ev_read, Native.ev_vertex,
         Native.ev_fragment, Native.ev_compile, Native.ev_link;
       cbn [app drop]; by rewrite Hv, Hf.
Qed.

Lemma link_only_after_both_compile_witness :
  (Native.reliable Native.sound_driver st0 = true
   ∧ ELinkProgram 3%N
       ∈ (Native.load_shaders Native.sound_driver (demo_env true true false true)
            "v.glsl" "f.glsl" st0).2)
  ∧ 3%N = program_name st0
  ∧ ∃ post,
      (Native.load_shaders Native.sound_driver (demo_env true true false true)
         "v.glsl" "f.glsl" st0).2 =
        [ECreateShader GL_VERTEX_SHADER 1%N;
         ECreateShader GL_FRAGMENT_SHADER 2%N;
         EReadAsset "v.glsl"; EReadAsset "f.glsl";
         EShaderSource 1%N ["#version 410 core" +:+ nl; "void main(){}"];
         ECompileShader 1%N;
         EGetShaderiv 1%N GL_COMPILE_STATUS 1;
         EGetShaderiv 1%N GL_INFO_LOG_LENGTH 0;
         EShaderSource 2%N ["#version 410 core" +:+ nl; "void main(){}"];
         ECompileShader 2%N;
         EGetShaderiv 2%N GL_COMPILE_STATUS 1;
         EGetShaderiv 2%N GL_INFO_LOG_LENGTH 0;
         ECreateProgram 3%N;
         EAttachShader 3%N 1%N;
         EAttachShader 3%N 2%N;
         ELinkProgram 3%N] ++ post.
Proof.
  assert (H : ELinkProgram 3%N
    ∈ (Native.load_shaders Native.sound_driver (demo_env true true false true)
         "v.glsl" "f.glsl" st0).2).
  { apply list_elem_of_In. vm_compute. do 15 right. left. reflexivity. }
  split; [split; [reflexivity | exact H]|].
  exact (link_only_after_both_compile Native.sound_driver
           (demo_env true true false true) "v.glsl" "f.glsl" st0 3%N eq_refl H).
Defined.

(** X5.  A call that returns a wrapper has logged nothing, and a call that
    returns an empty result has logged at most one message. *)
Theorem at_most_one_log env vp fp st :
  match (load_shaders env vp fp st).1.1 with
  | Some _ => logged (load_shaders env vp fp st).2 = []
  | None => (length (logged (load_shaders env vp fp st).2) ≤ 1)%nat
  end.
Proof.
  rewrite load_shaders_run. cbn [fst snd].
  destruct (outcome_of env vp fp st); cbn [expected_result];
    try change (expected_trace env vp fp st InitRefused)
      with (expected_trace env vp fp st Loaded);
    rewrite ?(logged_wrapped env vp fp st); cbn; done || lia.
Qed.

Lemma trace_compile_vertex env vp fp st :
  assets_present env vp fp = true →
  take 4 (drop 4 (load_shaders env vp fp st).2) =
    ev_compile env (vs_name st) (vertex_obj env vp) (vs_code env vp).
Proof.
  intros Ha. rewrite load_shaders_run. cbn [snd]. unfold outcome_of.
  rewrite Ha. cbn [negb].
  destruct (sh_status (vertex_obj env vp)); [|reflexivity].
  destruct (sh_status (fragment_obj env fp)); [|reflexivity].
  destruct (pr_status (linked env vp fp [])); [|reflexivity].
  destruct (object_init env (program_name st)); reflexivity.
Qed.

(** X6.  An asset is judged empty by its byte count, the compiler reads it
    as a C string: a vertex asset whose first byte is NUL gets past the
    emptiness check, its shader is compiled, and what is compiled is the
    bare preamble. *)
Theorem nul_leading_asset_compiles_preamble env vp fp st rest :
  vs_code env vp = String NUL rest →
  empty (fs_code env fp) = false →
  shader_text env (vs_code env vp) = gl_version env
  ∧ take 3 (drop 4 (load_shaders env vp fp st).2) =
      [EShaderSource (vs_name st) [gl_version env; String NUL rest];
       ECompileShader (vs_name st);
       EGetShaderiv (vs_name st) GL_COMPILE_STATUS
         (of_bool (compile env GL_VERTEX_SHADER (gl_version env)).1)].
Proof.
  intros Hv Hf.
  assert (Htext : shader_text env (vs_code env vp) = gl_version env).
  { unfold shader_text. rewrite Hv. cbn. rewrite c_str_gl_version.
    change (gl_version env +:+ "" = gl_version env).
    clear. induction (gl_version env) as [|c s IH]; [done|].
    exact (f_equal (String c) IH). }
  split; [done|].
  assert (Ha : assets_present env vp fp = true).
  { unfold assets_present. by rewrite Hv, Hf. }
  pose proof (trace_compile_vertex env vp fp st Ha) as Ht.
  replace (take 3 (drop 4 (load_shaders env vp fp st).2))
    with (take 3 (take 4 (drop 4 (load_shaders env vp fp st).2)))
    by (by rewrite take_take).
  rewrite Ht.
  unfold ev_compile, vertex_obj, compiled. cbn [take sh_status].
  by rewrite Htext, Hv.
Qed.

Lemma nul_leading_asset_compiles_preamble_witness :
  (vs_code nul_env "nul.glsl" = String NUL "void main(){}"
   ∧ empty (fs_code nul_env "f.glsl") = false)
  ∧ shader_text nul_env (vs_code nul_env "nul.glsl") = gl_version nul_env
  ∧ take 3 (drop 4 (load_shaders nul_env "nul.glsl" "f.glsl" st0).2) =
      [EShaderSource (vs_name st0) [gl_version nul_env; String NUL "void main(){}"];
       ECompileShader (vs_name st0);
       EGetShaderiv (vs_name st0) GL_COMPILE_STATUS
         (of_bool (compile nul_env GL_VERTEX_SHADER (gl_version nul_env)).1)].
Proof.
  split; [split; reflexivity|].
  apply (nul_leading_asset_compiles_preamble nul_env "nul.glsl" "f.glsl" st0
           "void main(){}"); reflexivity.
Defined.

(** X7.  When the vertex stage fails to compile and the driver has no info
    log for it, the loader asks for the log with a buffer size of 0 into a
    one-character buffer, and the one message it logs is the bare label
    followed by a newline. *)
Theorem vertex_failure_without_info_log env vp fp st :
  assets_present env vp fp = true →
  sh_status (vertex_obj env vp) = false →
  sh_log (vertex_obj env vp) = "" →
  (load_shaders env vp fp st).1.1 = None
  ∧ logged (load_shaders env vp fp st).2 = ["Error compiling vertex shader: " +:+ nl]
  ∧ EGetShaderInfoLog (vs_name st) 0 (String NUL "") ∈ (load_shaders env vp fp st).2.
Proof.
  intros Ha Hv Hlog.
  rewrite load_shaders_run, (outcome_vertex_failed _ _ _ _ Ha Hv).
  cbn [fst snd expected_result]. traces. rewrite Hlog.
  split_and!; [reflexivity | reflexivity |].
  change (retrieved "") with (String NUL ""). cbn [info_log_length_of].
  apply list_elem_of_In; cbn; auto 30.
Qed.

Lemma vertex_failure_without_info_log_witness :
  (assets_present quiet_env "v.glsl" "f.glsl" = true
   ∧ sh_status (vertex_obj quiet_env "v.glsl") = false
   ∧ sh_log (vertex_obj quiet_env "v.glsl") = "")
  ∧ (load_shaders quiet_env "v.glsl" "f.glsl" st0).1.1 = None
  ∧ logged (load_shaders quiet_env "v.glsl" "f.glsl" st0).2 =
      ["Error compiling vertex shader: " +:+ nl]
  ∧ EGetShaderInfoLog (vs_name st0) 0 (String NUL "")
      ∈ (load_shaders quiet_env "v.glsl" "f.glsl" st0).2.
Proof.
  split; [by split_and!|].
  apply (vertex_failure_without_info_log quiet_env "v.glsl" "f.glsl" st0);
    reflexivity.
Defined.

Lemma load_shaders_preserves_wf_witness :
  wf st_busy = true
  ∧ wf (load_shaders (demo_env true true false true) "v.glsl" "f.glsl" st_busy).1.2 = true.
Proof.
  split; [reflexivity|].
  apply (load_shaders_preserves_wf (demo_env true true false true)
           "v.glsl" "f.glsl" st_busy).
  reflexivity.
Defined.

(** X9.  What a call returns and which calls it makes do not depend on the
    objects already in the table: from two tables in which the driver will
    hand out the same names, the results and the traces are the same. *)
Theorem load_shaders_ignores_table env vp fp st1 st2 :
  last_name st1 = last_name st2 →
  (load_shaders env vp fp st1).1.1 = (load_shaders env vp fp st2).1.1
  ∧ (load_shaders env vp fp st1).2 = (load_shaders env vp fp st2).2.
Proof.
  intros Hn. rewrite !load_shaders_run. cbn [fst snd].
  assert (Ho : outcome_of env vp fp st1 = outcome_of env vp fp st2)
    by (unfold outcome_of, program_name; by rewrite Hn).
  rewrite Ho. split.
  - unfold expected_result, program_name. by rewrite Hn.
  - unfold expected_trace, ev_create, ev_read, ev_missing, ev_vertex_error,
      ev_fragment_error, ev_shader_error, ev_compile, ev_link, ev_link_error,
      ev_cleanup, ev_wrap, vs_name, fs_name, program_name.
    by rewrite Hn.
Qed.

Lemma load_shaders_ignores_table_witness :
  last_name st_busy = last_name {| objects := ∅; last_name := 1%N |}
  ∧ (load_shaders (demo_env true true true true) "v.glsl" "f.glsl" st_busy).1.1 =
      (load_shaders (demo_env true true true true) "v.glsl" "f.glsl"
         {| objects := ∅; last_name := 1%N |}).1.1
  ∧ (load_shaders (demo_env true true true true) "v.glsl" "f.glsl" st_busy).2 =
      (load_shaders (demo_env true true true true) "v.glsl" "f.glsl"
         {| objects := ∅; last_name := 1%N |}).2.
Proof.
  split; [reflexivity|].
  apply (load_shaders_ignores_table (demo_env true true true true)
           "v.glsl" "f.glsl" st_busy {| objects := ∅; last_name := 1%N |}).
  reflexivity.
Defined.

(** X10.  When a stage fails to compile or the link fails, and the driver
    reports an info-log length [n] for which [n + 1] is negative as an
    [int] (INT_MAX is one), the allocation of the log buffer throws: the
    call does not return, nothing is logged, no info log is fetched and no
    detach or delete call is made. *)
Theorem report_allocation_throws d env vp fp st :
  Native.reliable d st = true →
  is_driver_failure (outcome_of env vp fp st) = true →
  Native.buffer_size d (Native.failure_log env vp fp (outcome_of env vp fp st)) < 0 →
  (Native.load_shaders d env vp fp st).1.1 = Native.Threw
  ∧ logged (Native.load_shaders d env vp fp st).2 = []
  ∧ diagnostics (Native.load_shaders d env vp fp st).2 = []
  ∧ Forall (λ e, is_release e = false) (Native.load_shaders d env vp fp st).2.
Proof.
  intros Hrel Hd Hneg. rewrite (native_run _ _ _ _ _ Hrel). cbn [fst snd].
  destruct (outcome_of env vp fp st); try discriminate;
    cbn [Native.failure_log] in Hneg;
    cbn [Native.expected_result];
    unfold Native.expected_trace, Native.ev_vertex_error, Native.ev_fragment_error,
      Native.ev_link_error, Native.ev_shader_error;
    rewrite !(report_threw _ _ Hneg);
    (split_and!; [reflexivity | reflexivity | reflexivity |]);
    by repeat constructor.
Qed.

Lemma report_allocation_throws_witness :
  (Native.reliable Native.long_log_driver st0 = true
   ∧ is_driver_failure
       (outcome_of (demo_env false true true true) "v.glsl" "f.glsl" st0) = true
   ∧ Native.buffer_size Native.long_log_driver
       (Native.failure_log (demo_env false true true true) "v.glsl" "f.glsl"
          (outcome_of (demo_env false true true true) "v.glsl" "f.glsl" st0)) < 0)
  ∧ (Native.load_shaders Native.long_log_driver (demo_env false true true true)
       "v.glsl" "f.glsl" st0).1.1 = Native.Threw
  ∧ logged
      (Native.load_shaders Native.long_log_driver (demo_env false true true true)
         "v.glsl" "f.glsl" st0).2 = []
  ∧ diagnostics
      (Native.load_shaders Native.long_log_driver (demo_env false true true true)
         "v.glsl" "f.glsl" st0).2 = []
  ∧ Forall (λ e, is_release e = false)
      (Native.load_shaders Native.long_log_driver (demo_env false true true true)
         "v.glsl" "f.glsl" st0).2.
Proof.
  split; [by split_and!|].
  apply (report_allocation_throws Native.long_log_driver
           (demo_env false true true true) "v.glsl" "f.glsl" st0); reflexivity.
Defined.

(** X11.  On a driver that creates the objects it is asked for and reports
    info-log lengths as the OpenGL reference defines them, for info logs
    that fit an [int], every call returns, and its result, the table it
    leaves and the calls it makes are those of the loader over the driver
    at its best. *)
Theorem sound_driver_refines d env vp fp st :
  Native.reliable d st = true →
  (∀ log, Native.log_length d log = info_log_length_of log) →
  logs_fit env →
  Native.load_shaders d env vp fp st =
    (Native.Returned (load_shaders env vp fp st).1.1,
     (load_shaders env vp fp st).1.2,
     (load_shaders env vp fp st).2).
Proof.
  intros Hrel Hlen Hfit.
  rewrite (native_run _ _ _ _ _ Hrel), load_shaders_run. cbn [fst snd].
  rewrite native_result_returned by by apply sound_buffers_ok.
  by rewrite sound_expected_trace.
Qed.

Lemma sound_driver_refines_witness :
  (Native.reliable Native.sound_driver st0 = true
   ∧ (∀ log, Native.log_length Native.sound_driver log = info_log_length_of log))
  ∧ Native.load_shaders Native.sound_driver (demo_env true true false true)
      "v.glsl" "f.glsl" st0 =
    (Native.Returned
       (load_shaders (demo_env true true false true) "v.glsl" "f.glsl" st0).1.1,
     (load_shaders (demo_env true true false true) "v.glsl" "f.glsl" st0).1.2,
     (load_shaders (demo_env true true false true) "v.glsl" "f.glsl" st0).2).
Proof.
  split; [by split|].
  apply (sound_driver_refines Native.sound_driver (demo_env true true false true)
           "v.glsl" "f.glsl" st0).
  - reflexivity.
  - intros log. reflexivity.
  - apply demo_logs_fit.
Defined.

(** X12.  When the creation of the vertex shader fails and both assets are
    present, the calls on the 0 it returned compile nothing and neither
    query of the vertex stage writes its variable: [result] keeps its
    initial 0, the failure branch is taken, and it reads an
    [info_log_length] that was never written.  The call has no defined
    result, and it has logged nothing by then. *)
Theorem vertex_creation_failure_reads_unwritten_length d env vp fp st :
  Native.create_ok d (vs_name st) = false →
  assets_present env vp fp = true →
  (Native.load_shaders d env vp fp st).1.1 = Native.Undefined
  ∧ logged (Native.load_shaders d env vp fp st).2 = []
  ∧ EGetShaderivError 0%N GL_COMPILE_STATUS ∈ (Native.load_shaders d env vp fp st).2
  ∧ last (Native.load_shaders d env vp fp st).2 =
      Some (EGetShaderivError 0%N GL_INFO_LOG_LENGTH).
Proof.
  intros Hcv Ha.
  destruct (nrun_no_vertex_present d env vp fp st Hcv Ha) as (Hr & fs & Ht).
  rewrite Hr, Ht. split_and!; try reflexivity.
  apply list_elem_of_In; cbn; auto 30.
Qed.

Lemma vertex_creation_failure_reads_unwritten_length_witness :
  (Native.create_ok (Native.failing_at 1%N) (vs_name st0) = false
   ∧ assets_present (demo_env true true true true) "v.glsl" "f.glsl" = true)
  ∧ (Native.load_shaders (Native.failing_at 1%N) (demo_env true true true true)
       "v.glsl" "f.glsl" st0).1.1 = Native.Undefined
  ∧ logged
      (Native.load_shaders (Native.failing_at 1%N) (demo_env true true true true)
         "v.glsl" "f.glsl" st0).2 = []
  ∧ EGetShaderivError 0%N GL_COMPILE_STATUS
      ∈ (Native.load_shaders (Native.failing_at 1%N) (demo_env true true true true)
           "v.glsl" "f.glsl" st0).2
  ∧ last
      (Native.load_shaders (Native.failing_at 1%N) (demo_env true true true true)
         "v.glsl" "f.glsl" st0).2 =
      Some (EGetShaderivError 0%N GL_INFO_LOG_LENGTH).
Proof.
  split; [by split|].
  apply (vertex_creation_failure_reads_unwritten_length (Native.failing_at 1%N)
           (demo_env true true true true) "v.glsl" "f.glsl" st0); reflexivity.
Defined.

(** X13.  When both stages compile and the creation of the program fails,
    the attach, link and query calls are made on 0 and the driver answers
    no link-status query; the test of [result] reads the 1 that the
    fragment stage's compile-status query wrote, so the run goes on to
    detach, to delete both shaders and to hand 0 to [init], and what the
    call returns is decided by [init] alone. *)
Theorem program_creation_failure_reaches_init d env vp fp st :
  Native.create_ok d (vs_name st) = true →
  Native.create_ok d (fs_name st) = true →
  Native.create_ok d (program_name st) = false →
  assets_present env vp fp = true →
  sh_status (vertex_obj env vp) = true →
  sh_status (fragment_obj env fp) = true →
  (Native.load_shaders d env vp fp st).1.1 =
    Native.Returned
      (if object_init env 0%N
       then Some {| name := 0%N; deleter := Some glDeleteProgram |} else None)
  ∧ (Native.load_shaders d env vp fp st).2 =
      ev_create st ++ ev_read vp fp
      ++ Native.ev_vertex d env vp st ++ Native.ev_fragment d env fp st
      ++ [ECreateProgram 0%N;
          EAttachShader 0%N (vs_name st); EAttachShader 0%N (fs_name st);
          ELinkProgram 0%N;
          EGetProgramivError 0%N GL_LINK_STATUS;
          EGetProgramivError 0%N GL_INFO_LOG_LENGTH;
          EDetachShader 0%N (vs_name st); EDetachShader 0%N (fs_name st);
          EDeleteShader (vs_name st); EDeleteShader (fs_name st);
          EInit 0%N (object_init env 0%N)]
      ++ (if object_init env 0%N || negb (init_binds_on_refusal env)
          then [] else [EDeleteProgram 0%N])
  ∧ Forall (λ e, Native.is_link_answer e = false)
      (Native.load_shaders d env vp fp st).2.
Proof.
  intros Hcv Hcf Hcp Ha Hv Hf.
  destruct (nrun_no_program_compiled d env vp fp st Hcv Hcf Hcp Ha Hv Hf)
    as (Hr & Ht).
  rewrite Hr, Ht. split_and!; try reflexivity.
  unfold ev_create, ev_read, Native.ev_vertex, Native.ev_fragment,
    Native.ev_compile.
  destruct (object_init env 0%N), (init_binds_on_refusal env);
    cbn [app orb negb]; by repeat constructor.
Qed.

Lemma program_creation_failure_reaches_init_witness :
  (Native.create_ok (Native.failing_at 3%N) (vs_name st0) = true
   ∧ Native.create_ok (Native.failing_at 3%N) (fs_name st0) = true
   ∧ Native.create_ok (Native.failing_at 3%N) (program_name st0) = false
   ∧ assets_present (demo_env true true true false) "v.glsl" "f.glsl" = true
   ∧ sh_status (vertex_obj (demo_env true true true false) "v.glsl") = true
   ∧ sh_status (fragment_obj (demo_env true true true false) "f.glsl") = true)
  ∧ (Native.load_shaders (Native.failing_at 3%N) (demo_env true true true false)
       "v.glsl" "f.glsl" st0).1.1 = Native.Returned None
  ∧ Forall (λ e, Native.is_link_answer e = false)
      (Native.load_shaders (Native.failing_at 3%N) (demo_env true true true false)
         "v.glsl" "f.glsl" st0).2.
Proof.
  split; [by split_and!|].
  destruct (program_creation_failure_reaches_init (Native.failing_at 3%N)
              (demo_env true true true false) "v.glsl" "f.glsl" st0
              eq_refl eq_refl eq_refl eq_refl eq_refl eq_refl)
    as (Hr & _ & Hl).
  split; [exact Hr | exact Hl].
Defined.

(** X14.  On every driver, whichever creations it refuses, a call in which
    either asset reads back empty returns an empty result after five calls:
    the two shader creations, the two reads and the one log call, whose
    message names the vertex path.  No shader is uploaded or compiled and
    no query is made. *)
Theorem empty_asset_on_any_driver d env vp fp st :
  empty (vs_code env vp) = true ∨ empty (fs_code env fp) = true →
  (Native.load_shaders d env vp fp st).1.1 = Native.Returned None
  ∧ (∃ vs fs,
       (Native.load_shaders d env vp fp st).2 =
         [ECreateShader GL_VERTEX_SHADER vs;
          ECreateShader GL_FRAGMENT_SHADER fs;
          EReadAsset vp; EReadAsset fp;
          ELogError ("Couldn't open shader: " +:+ vp)])
  ∧ logged (Native.load_shaders d env vp fp st).2 = ["Couldn't open shader: " +:+ vp]
  ∧ Forall (λ e, is_compiler_call e = false) (Native.load_shaders d env vp fp st).2.
Proof.
  intros Ha. apply assets_missing_iff in Ha.
  destruct (nrun_missing_any d env vp fp st Ha) as (Hr & vs & fs & Ht).
  rewrite Hr, Ht. split_and!; try reflexivity.
  - by exists vs, fs.
  - by repeat constructor.
Qed.

Lemma empty_asset_on_any_driver_witness :
  (empty (vs_code (demo_env true true true true) "v.glsl") = true
   ∨ empty (fs_code (demo_env true true true true) "missing.glsl") = true)
  ∧ (Native.load_shaders (Native.failing_at 1%N) (demo_env true true true true)
       "v.glsl" "missing.glsl" st0).1.1 = Native.Returned None
  ∧ logged
      (Native.load_shaders (Native.failing_at 1%N) (demo_env true true true true)
         "v.glsl" "missing.glsl" st0).2 = ["Couldn't open shader: v.glsl"]
  ∧ Forall (λ e, is_compiler_call e = false)
      (Native.load_shaders (Native.failing_at 1%N) (demo_env true true true true)
         "v.glsl" "missing.glsl" st0).2.
Proof.
  split; [right; reflexivity|].
  destruct (empty_asset_on_any_driver (Native.failing_at 1%N)
              (demo_env true true true true) "v.glsl" "missing.glsl" st0
              (or_intror eq_refl))
    as (Hr & _ & Hl & Hc).
  split_and!; [exact Hr | exact Hl | exact Hc].
Defined.
